(** * validation-tracker: the validator registry and its peer streams

    A shallow embedding of [validation-tracker.ts]: the [ValidationStream]
    class (one WebSocket to one rippled), the [Network] class (validator
    list, manifests, signing-key index) and the listeners that connect
    them.

    - JavaScript objects used as dictionaries are finite maps; numbers
      that the interfaces declare as integers are [Z].
    - A handler is a state transformer over the fields of [Network] that
      either returns or throws, keeping the writes made before the throw.
    - The external libraries (address codec, binary codec, HTTP, DNS, ws)
      are not part of the repository: what they compute is a parameter
      ([Externals]), what they deliver is an input ([Input]).
    - Every handler runs to completion before the next input is handled.
      The two [await this.fetchName(...)] are answered in place by
      [validatorDomain]; in the program other handlers may run at these
      two points, between the write to [validators] and the call of
      [onUnlData].  What this leaves out for [names], lookups of one
      identity that overlap, is modelled by [Event]: a call of
      [fetchName] and the settling of its request are separate steps
      there, and the answer is part of the input.
    - A field the class declares without an initialiser is [undefined]
      until something assigns it; [validationStreams] is such a field,
      so its value is an [option]. *)

From Stdlib Require Import ZArith.
From stdpp Require Import base option gmap strings list fin_maps.

Local Open Scope Z_scope.

(** ** Data model *)

(** [ValidationMessage]: one vote of the validations stream.  Omitted
    JSON fields are [None]; [timestamp] is absent on the wire and is set
    on receipt. *)
Module ValidationMessage.
Record t := mk {
  amendments : option (list string);
  base_fee : option Z;
  flags : Z;
  full : bool;
  ledger_hash : string;
  ledger_index : string;
  load_fee : option Z;
  reserve_base : option Z;
  reserve_inc : option Z;
  signature : string;
  signing_time : Z;
  validation_public_key : string;
  timestamp : option Z
}.

(** [validationMessage.timestamp = moment()] *)
Definition set_timestamp (now : Z) (m : t) : t :=
  mk (amendments m) (base_fee m) (flags m) (full m) (ledger_hash m)
     (ledger_index m) (load_fee m) (reserve_base m) (reserve_inc m)
     (signature m) (signing_time m) (validation_public_key m) (Some now).
End ValidationMessage.

(** [ManifestMessage]: one message of the manifests stream. *)
Module ManifestMessage.
Record t := mk {
  master_key : string;
  signing_key : string;
  seq : Z;
  signature : string;
  master_signature : string
}.
End ManifestMessage.

(** [Manifest]: the decoded manifest of a validator-list entry. *)
Module Manifest.
Record t := mk {
  SigningPubKey : string;
  Sequence : Z
}.
End Manifest.

(** The value type of [Network.validators]. *)
Module Validator.
Record t := mk {
  signing_key : string;
  Sequence : Z
}.
End Validator.

(** The argument of [OnUnlDataCallback]. *)
Module UnlData.
Record t := mk {
  isDuringStartup : bool;
  isNewValidator : bool;
  isNewManifest : bool;
  validatorName : string;
  validation_public_key_base58 : string;
  signing_key : string;
  Sequence : Z;
  isFromManifestsStream : option bool
}.
End UnlData.

(** The decoded validator list: [{sequence, validators: [{validation_public_key, manifest}]}]. *)
Module ValidatorList.
Record entry := mk_entry {
  validation_public_key : string;
  manifest : string
}.
Record t := mk {
  sequence : Z;
  validators : list entry
}.
End ValidatorList.

(** The argument of [onClose]: an [Error] or [{code, reason}]. *)
Inductive Cause :=
| CauseError (message : string)
| CauseClose (code : Z) (reason : string).

(** [JSON.parse(data)] as the message listener discriminates it;
    [unparsable] is data on which [JSON.parse] or the first field access
    throws. *)
Inductive DataObj :=
| validationReceived (validationMessage : ValidationMessage.t)
| manifestReceived (manifestMessage : ManifestMessage.t)
| unknownStream
| unexpected (data : string)
| unparsable.

(** The events of the [ws] socket that have listeners. *)
Inductive WsEvent :=
| ws_open
| ws_ping
| ws_close (code : Z) (reason : string)
| ws_error (error : string)
| ws_message (dataObj : DataObj) (now : Z).

(** A request sent to the rippled: [{id, command, streams}]. *)
Module Request.
Record t := mk {
  id : Z;
  command : string;
  streams : list string
}.
End Request.

(** A [ValidationStream] object: its constructor options that are data,
    the pending heartbeat timer ([pingTimeout], the delay it was armed
    with) and the state of its socket ([ws.readyState], requests sent). *)
Module ValidationStream.
Record t := mk {
  address : string;
  useHeartbeat : bool;
  serverPingInterval : Z;
  latency : Z;
  pingTimeout : option Z;
  ws_readyState : Z;
  ws_sent : list Request.t
}.

Definition set_pingTimeout (p : option Z) (s : t) : t :=
  mk (address s) (useHeartbeat s) (serverPingInterval s) (latency s)
     p (ws_readyState s) (ws_sent s).
Definition set_ws_readyState (r : Z) (s : t) : t :=
  mk (address s) (useHeartbeat s) (serverPingInterval s) (latency s)
     (pingTimeout s) r (ws_sent s).
Definition ws_send (frame : Request.t) (s : t) : t :=
  mk (address s) (useHeartbeat s) (serverPingInterval s) (latency s)
     (pingTimeout s) (ws_readyState s) (ws_sent s ++ [frame]).

(** [readyState().state] *)
Definition readyState (s : t) : string :=
  if ws_readyState s =? 0 then "CONNECTING"
  else if ws_readyState s =? 1 then "OPEN"
  else if ws_readyState s =? 2 then "CLOSING"
  else if ws_readyState s =? 3 then "CLOSED"
  else "UNKNOWN".
End ValidationStream.

Inductive NetworkType := ALTNET | MAINNET.

(** A call of one of the callbacks, recorded in the order made. *)
Inductive Call :=
| OnUnlData (data : UnlData.t)
| OnValidationReceived (validationMessage : ValidationMessage.t)
| OnClose (address : string) (cause : Cause).

(** The fields of [Network].  [objects] holds every [ValidationStream]
    constructed so far (a stream outlives its entry in
    [validationStreams], which refers to it by position); [calls] is the
    record of callback invocations.  [validationStreams] is declared
    without an initialiser and the class never assigns it: [None] is
    [undefined], [Some streams] is an object assigned from outside. *)
Record Network := mkNetwork {
  network : NetworkType;
  objects : list ValidationStream.t;
  validationStreams : option (gmap string nat);
  lastValidatorListSequence : Z;
  validators : gmap string Validator.t;
  names : gmap string string;
  manifestKeys : gmap string string;
  calls : list Call
}.

Definition set_objects (f : list ValidationStream.t → list ValidationStream.t) (n : Network) : Network :=
  mkNetwork (network n) (f (objects n)) (validationStreams n)
    (lastValidatorListSequence n) (validators n) (names n) (manifestKeys n) (calls n).
(** A write to a key of [validationStreams]; the code reaches one only
    after a read of the field has succeeded. *)
Definition set_validationStreams (f : gmap string nat → gmap string nat) (n : Network) : Network :=
  mkNetwork (network n) (objects n) (f <$> validationStreams n)
    (lastValidatorListSequence n) (validators n) (names n) (manifestKeys n) (calls n).
Definition set_lastValidatorListSequence (z : Z) (n : Network) : Network :=
  mkNetwork (network n) (objects n) (validationStreams n)
    z (validators n) (names n) (manifestKeys n) (calls n).
Definition set_validators (f : gmap string Validator.t → gmap string Validator.t) (n : Network) : Network :=
  mkNetwork (network n) (objects n) (validationStreams n)
    (lastValidatorListSequence n) (f (validators n)) (names n) (manifestKeys n) (calls n).
Definition set_names (f : gmap string string → gmap string string) (n : Network) : Network :=
  mkNetwork (network n) (objects n) (validationStreams n)
    (lastValidatorListSequence n) (validators n) (f (names n)) (manifestKeys n) (calls n).
Definition set_manifestKeys (f : gmap string string → gmap string string) (n : Network) : Network :=
  mkNetwork (network n) (objects n) (validationStreams n)
    (lastValidatorListSequence n) (validators n) (names n) (f (manifestKeys n)) (calls n).
Definition add_call (c : Call) (n : Network) : Network :=
  mkNetwork (network n) (objects n) (validationStreams n)
    (lastValidatorListSequence n) (validators n) (names n) (manifestKeys n) (calls n ++ [c]).

(** The fields of the object under construction once the field
    initialisers and the three assignments of the constructor have run:
    [validationStreams] is [undefined]. *)
Definition new_Network (t : NetworkType) : Network :=
  mkNetwork t [] None 0 ∅ ∅ ∅ [].

(** The entry of [validationStreams] for an address, when the field is
    an object and has one. *)
Definition stream_of (n : Network) (address : string) : option nat :=
  streams ← validationStreams n; streams !! address.

(** The calls of each callback, read off [calls]. *)
Definition onUnlData_calls (l : list Call) : list UnlData.t :=
  omap (λ c, match c with OnUnlData data => Some data | _ => None end) l.
Definition onValidationReceived_calls (l : list Call) : list ValidationMessage.t :=
  omap (λ c, match c with OnValidationReceived m => Some m | _ => None end) l.
Definition onClose_calls (address : string) (l : list Call) : list Cause :=
  omap (λ c, match c with
             | OnClose a cause => if String.eqb a address then Some cause else None
             | _ => None
             end) l.

(** ** Handlers: state, and return or throw *)

Inductive outcome (A : Type) :=
| Returned (a : A)
| Thrown (what : string).
Arguments Returned {A} a.
Arguments Thrown {A} what.

Definition Task (A : Type) : Type := Network → outcome A * Network.

Definition ret {A} (a : A) : Task A := λ n, (Returned a, n).
Definition throw {A} (what : string) : Task A := λ n, (Thrown what, n).
Definition bind {A B} (m : Task A) (k : A → Task B) : Task B :=
  λ n, match m n with
       | (Returned a, n') => k a n'
       | (Thrown e, n') => (Thrown e, n')
       end.
Definition get : Task Network := λ n, (Returned n, n).
Definition modify (f : Network → Network) : Task unit := λ n, (Returned tt, f n).
(** A call into an external library that returns or throws. *)
Definition call {A} (what : string) (r : option A) : Task A :=
  match r with Some a => ret a | None => throw what end.

#[global] Instance Task_ret : MRet Task := @ret.
#[global] Instance Task_bind : MBind Task := λ A B k m, bind m k.

(** [for (const x of l) body(x)] *)
Fixpoint for_of {A} (l : list A) (body : A → Task unit) : Task unit :=
  match l with
  | [] => ret tt
  | x :: l' => bind (body x) (λ _, for_of l' body)
  end.

(** ** External services

    [hexToBase58] wraps [addressCodec.encodeNodePublic]; [decodeManifest]
    is the base64 decoding of an entry's manifest followed by
    [codec.decode]; [parseValidatorList] is the base64 decoding of
    [data.blob] followed by [JSON.parse]; [validatorDomain] is the
    [domain] field answered by the Data API.  [None] is a throw (for
    [validatorDomain]: a failed request or no [domain] field). *)
Class Externals := {
  hexToBase58 : string → option string;
  decodeManifest : string → option Manifest.t;
  parseValidatorList : string → option ValidatorList.t;
  validatorDomain : string → option string
}.

(** ** Utility methods *)

(** [array.indexOf(element)] *)
Fixpoint indexOf (array : list string) (element : string) : Z :=
  match array with
  | [] => -1
  | x :: array' =>
      if decide (x = element) then 0
      else let i := indexOf array' element in
           if decide (i = -1) then -1 else i + 1
  end.

(** [remove(array, element)]: splice out the first occurrence. *)
Definition remove (array : list string) (element : string) : list string :=
  let index := indexOf array element in
  if decide (index ≠ -1) then delete (Z.to_nat index) array else array.

(** JavaScript truthiness of a string. *)
Definition truthy (s : string) : bool := negb (String.eqb s "").

Definition dquote : string := String (Ascii.ascii_of_nat 34) EmptyString.

(** ** class ValidationStream *)

Record ValidationStreamCallbacks := {
  onValidationReceived : ValidationMessage.t → Task unit;
  onManifestReceived : ManifestMessage.t → Task unit;
  onClose : Cause → Task unit
}.

(** The object the constructor builds, with the default options. *)
Definition new_ValidationStream (address : string) : ValidationStream.t :=
  ValidationStream.mk address true 30000 1000 None 0 [].

Section ValidationStream_listeners.
Variable cb : ValidationStreamCallbacks.
(** [this]: the position of the stream in [objects]. *)
Variable this : nat.

Definition update_this (f : ValidationStream.t → ValidationStream.t) : Task unit :=
  modify (set_objects (alter f this)).

(** [this.ws.terminate()]: the socket goes to CLOSING unless it is
    already CLOSED; its close event comes later. *)
Definition ws_terminate : Task unit :=
  update_this (λ s, if ValidationStream.ws_readyState s =? 3 then s
                    else ValidationStream.set_ws_readyState 2 s).

(** [heartbeat]: clear the timer and arm it again. *)
Definition heartbeat (s : ValidationStream.t) : Task unit :=
  update_this (ValidationStream.set_pingTimeout
    (Some (ValidationStream.serverPingInterval s + ValidationStream.latency s))).

(** The function given to [setTimeout] in [heartbeat]. *)
Definition pingTimeout_callback : Task unit :=
  ws_terminate ;;
  onClose cb (CauseError "Terminated due to lack of heartbeat").

(** The close listener registered inside [if (useHeartbeat)]. *)
Definition heartbeat_close (code : Z) (reason : string) : Task unit :=
  update_this (ValidationStream.set_pingTimeout None) ;;
  onClose cb (CauseClose code reason).

(** The close listener registered unconditionally. *)
Definition plain_close (code : Z) (reason : string) : Task unit :=
  onClose cb (CauseClose code reason).

(** The second open listener: the two subscription requests. *)
Definition subscribe : Task unit :=
  update_this (ValidationStream.ws_send (Request.mk 1 "subscribe" ["validations"])) ;;
  update_this (ValidationStream.ws_send (Request.mk 2 "subscribe" ["manifests"])).

(** The message listener. *)
Definition message (dataObj : DataObj) (now : Z) : Task unit :=
  match dataObj with
  | unparsable => throw "SyntaxError"
  | validationReceived validationMessage =>
      onValidationReceived cb (ValidationMessage.set_timestamp now validationMessage)
  | manifestReceived manifestMessage =>
      onManifestReceived cb manifestMessage
  | unknownStream =>
      ws_terminate ;;
      onClose cb (CauseError ("Terminated due " +:+ dquote +:+ "unknownStream" +:+ dquote +:+ " message"))
  | unexpected _ => ret tt
  end.

(** The listeners of an event, in the order the constructor registers
    them. *)
Definition listeners (s : ValidationStream.t) (e : WsEvent) : list (Task unit) :=
  match e with
  | ws_open =>
      (if ValidationStream.useHeartbeat s then [heartbeat s] else []) ++ [subscribe]
  | ws_ping =>
      if ValidationStream.useHeartbeat s then [heartbeat s] else []
  | ws_close code reason =>
      (if ValidationStream.useHeartbeat s then [heartbeat_close code reason] else [])
      ++ [plain_close code reason]
  | ws_error _ => [ret tt]
  | ws_message dataObj now => [message dataObj now]
  end.

(** What the socket itself does to [readyState] before it emits. *)
Definition ws_transition (e : WsEvent) : Task unit :=
  match e with
  | ws_open => update_this (ValidationStream.set_ws_readyState 1)
  | ws_close _ _ => update_this (ValidationStream.set_ws_readyState 3)
  | _ => ret tt
  end.

(** [ws.emit(e)]: every listener of [e] in turn; a throw ends the
    emit. *)
Definition emit (e : WsEvent) : Task unit :=
  n ← get;
  match objects n !! this with
  | None => ret tt
  | Some s => ws_transition e ;; for_of (listeners s e) (λ l, l)
  end.

(** The heartbeat timer runs out: its callback runs if the timer is
    still pending. *)
Definition pingTimeout_expires : Task unit :=
  n ← get;
  match objects n !! this with
  | Some s =>
      match ValidationStream.pingTimeout s with
      | Some _ => update_this (ValidationStream.set_pingTimeout None) ;; pingTimeout_callback
      | None => ret tt
      end
  | None => ret tt
  end.
End ValidationStream_listeners.

(** ** class Network *)

Definition WS_PORT : string := "51233".

Section Network_methods.
Context {ext : Externals}.

(** The test [!this.names[id]] of [fetchName]: the cached name, when
    [names] has a truthy one (a missing entry and the empty string are
    both falsy). *)
Definition cached_name (n : Network) (validation_public_key_base58 : string)
    : option string :=
  match names n !! validation_public_key_base58 with
  | Some name => if truthy name then Some name else None
  | None => None
  end.

(** The [then] and [catch] callbacks of the request of [fetchName], for
    what the request settles with: [Some domain] is a response that has
    [data.domain], [None] a response without one or a failed request.
    The callback writes [names] without reading it again. *)
Definition fetchName_settled (validation_public_key_base58 : string)
    (response : option string) : Task string :=
  match response with
  | Some domain =>
      if truthy domain then
        modify (set_names (<[validation_public_key_base58 := domain]>)) ;;
        ret domain
      else ret validation_public_key_base58
  | None => ret validation_public_key_base58
  end.

(** The request of [fetchName] settled at once, with what the Data API
    has for the identity. *)
Definition fetchName_request (validation_public_key_base58 : string) : Task string :=
  fetchName_settled validation_public_key_base58
    (validatorDomain validation_public_key_base58).

(** [fetchName] as the handlers below await it: the request, if one is
    made, settles before any other code runs.  Requests that settle
    later are the subject of [Event] below. *)
Definition fetchName (validation_public_key_base58 : string) : Task string :=
  n ← get;
  match cached_name n validation_public_key_base58 with
  | Some name => ret name
  | None => fetchName_request validation_public_key_base58
  end.

(** [onManifestReceived] of [subscribeToRippleds] *)
Definition Network_onManifestReceived (m : ManifestMessage.t) : Task unit :=
  let master_key := ManifestMessage.master_key m in
  let seq := ManifestMessage.seq m in
  let signing_key := ManifestMessage.signing_key m in
  n ← get;
  match validators n !! master_key with
  | Some v =>
      if Validator.Sequence v <? seq then
        modify (set_manifestKeys (delete (Validator.signing_key v))) ;;
        modify (set_validators (alter (λ v, Validator.mk signing_key (Validator.Sequence v)) master_key)) ;;
        modify (set_validators (alter (λ v, Validator.mk (Validator.signing_key v) seq) master_key)) ;;
        modify (set_manifestKeys (<[signing_key := master_key]>)) ;;
        validatorName ← fetchName master_key;
        modify (add_call (OnUnlData
          (UnlData.mk false false true validatorName master_key signing_key seq (Some true))))
      else ret tt
  | None => ret tt
  end.

(** [onCloseAddress] of [subscribeToRippleds]: reading
    [this.validationStreams[address].readyState()] throws when the field
    is [undefined] and when the stream is no longer in it. *)
Definition onCloseAddress (address : string) (cause : Cause) : Task unit :=
  n ← get;
  match stream_of n address with
  | None => throw "TypeError"
  | Some _ => modify (set_validationStreams (delete address))
  end.

(** The options [subscribeToRippleds] gives to [new ValidationStream]. *)
Definition stream_callbacks (address : string) : ValidationStreamCallbacks := {|
  onValidationReceived := λ validationMessage,
    modify (add_call (OnValidationReceived validationMessage));
  onManifestReceived := Network_onManifestReceived;
  onClose := λ cause,
    modify (add_call (OnClose address cause)) ;; onCloseAddress address cause
|}.

(** The callback of [dns.resolve4] in [subscribeToRippleds].  The test
    [!this.validationStreams[address]] throws when the field is
    [undefined], before a stream is constructed. *)
Definition resolve4_callback (r : option (list string)) : Task unit :=
  match r with
  | None => ret tt
  | Some ips =>
      for_of ips (λ ip,
        let address := "ws://" +:+ ip +:+ ":" +:+ WS_PORT in
        n ← get;
        match validationStreams n with
        | None => throw "TypeError"
        | Some streams =>
            match streams !! address with
            | Some _ => ret tt
            | None =>
                modify (set_objects (λ o, o ++ [new_ValidationStream address])) ;;
                modify (set_validationStreams (<[address := length (objects n)]>))
            end
        end)
  end.

(** One turn of the loop over [validatorList.validators] in [getUNL];
    [validatorsToDelete] is the array [remove] mutates. *)
Definition getUNL_validator (isDuringStartup : bool)
    (validatorsToDelete : list string) (validator : ValidatorList.entry)
    : Task (list string) :=
  validation_public_key_base58 ←
    call "encodeNodePublic" (hexToBase58 (ValidatorList.validation_public_key validator));
  let validatorsToDelete := remove validatorsToDelete validation_public_key_base58 in
  manifest ← call "decode" (decodeManifest (ValidatorList.manifest validator));
  n ← get;
  if match validators n !! validation_public_key_base58 with
     | None => true
     | Some v => Validator.Sequence v <? Manifest.Sequence manifest
     end
  then
    signing_key ← call "encodeNodePublic" (hexToBase58 (Manifest.SigningPubKey manifest));
    let Sequence := Manifest.Sequence manifest in
    flags ←
      match validators n !! validation_public_key_base58 with
      | Some _ =>
          modify (set_validators (alter (λ v, Validator.mk signing_key (Validator.Sequence v))
                                        validation_public_key_base58)) ;;
          modify (set_validators (alter (λ v, Validator.mk (Validator.signing_key v) Sequence)
                                        validation_public_key_base58)) ;;
          ret (false, true)
      | None =>
          modify (set_validators (<[validation_public_key_base58 := Validator.mk signing_key Sequence]>)) ;;
          ret (true, true)
      end;
    validatorName ← fetchName validation_public_key_base58;
    modify (add_call (OnUnlData
      (UnlData.mk isDuringStartup flags.1 flags.2 validatorName
                  validation_public_key_base58 signing_key Sequence None))) ;;
    modify (set_manifestKeys (<[signing_key := validation_public_key_base58]>)) ;;
    ret validatorsToDelete
  else ret validatorsToDelete.

(** [for (const validator of validatorList.validators)] *)
Fixpoint getUNL_validators (isDuringStartup : bool)
    (validatorsToDelete : list string) (l : list ValidatorList.entry)
    : Task (list string) :=
  match l with
  | [] => ret validatorsToDelete
  | validator :: l' =>
      validatorsToDelete ← getUNL_validator isDuringStartup validatorsToDelete validator;
      getUNL_validators isDuringStartup validatorsToDelete l'
  end.

(** The function [getUNL] gives to [then]. *)
Definition getUNL_then (blob : string) : Task unit :=
  validatorList ← call "JSON.parse" (parseValidatorList blob);
  n ← get;
  if ValidatorList.sequence validatorList <=? lastValidatorListSequence n then ret tt
  else
    modify (set_lastValidatorListSequence (ValidatorList.sequence validatorList)) ;;
    n ← get;
    let validatorsToDelete := (map_to_list (validators n)).*1 in
    let isDuringStartup := bool_decide (length validatorsToDelete = 0%nat) in
    validatorsToDelete ←
      getUNL_validators isDuringStartup validatorsToDelete
                        (ValidatorList.validators validatorList);
    for_of validatorsToDelete (λ validator,
      modify (set_validators (delete validator))).

(** [getUNL] once [request.get] has settled: rejected ([None]) or
    resolved with [data.blob]. *)
Definition getUNL (settled : option string) : Task unit :=
  match settled with
  | None => throw "RequestError"
  | Some blob => getUNL_then blob
  end.

(** ** The event loop *)

Inductive Input :=
| request_settles (settled : option string)
| resolve4_calls_back (r : option (list string))
| ws_emits (stream : nat) (e : WsEvent)
| pingTimeout_runs_out (stream : nat).

(** The stream's callbacks are those of the address it was constructed
    with. *)
Definition callbacks_of (n : Network) (stream : nat) : ValidationStreamCallbacks :=
  stream_callbacks (default "" (ValidationStream.address <$> objects n !! stream)).

Definition handle (i : Input) : Task unit :=
  match i with
  | request_settles settled => getUNL settled
  | resolve4_calls_back r => resolve4_callback r
  | ws_emits stream e => n ← get; emit (callbacks_of n stream) stream e
  | pingTimeout_runs_out stream =>
      n ← get; pingTimeout_expires (callbacks_of n stream) stream
  end.

(** A throw ends the handler; the state it leaves is the state the
    next handler sees. *)
Definition step (n : Network) (i : Input) : Network := (handle i n).2.

Definition run (n : Network) (l : list Input) : Network := foldl step n l.

(** ** The constructor *)

(** What [refreshSubscriptions] has called when it returns. *)
Inductive Started :=
| getUNL_called
| subscribeToRippleds_called.

(** [refreshSubscriptions] is a function declaration inside the
    constructor, so its [this] is the one of each call: [bound] says
    whether the call gives it the [Network].  Reading [this.network] of
    [undefined] throws before [getUNL] and [subscribeToRippleds] are
    called. *)
Definition refreshSubscriptions (bound : bool) : Task (list Started) :=
  if bound then ret [getUNL_called; subscribeToRippleds_called]
  else throw "TypeError".

(** The [constructor]: after the three assignments, [setInterval] gets
    [refreshSubscriptions] as a plain function and the last statement
    calls it as [refreshSubscriptions()]; class code is strict, so in
    both [this] is [undefined]. *)
Definition Network_constructor (t : NetworkType) : outcome (list Started) * Network :=
  refreshSubscriptions false (new_Network t).

(** ** Lookups in flight

    [fetchName] is asynchronous.  Between its test of [names] and the
    callback of its request other code runs, and other lookups of the
    same identity can start; the handlers above leave no room for that.
    An [Event] is an input handled as above, a call of [fetchName]
    whose request stays in flight, or the settling of a request in
    flight; the state carries the identities of the requests in
    flight. *)
Inductive Event :=
| input (i : Input)
| fetchName_called (validation_public_key_base58 : string)
| fetchName_request_settles (validation_public_key_base58 : string)
    (response : option string).

Definition event_step (st : Network * list string) (e : Event)
    : Network * list string :=
  let '(n, in_flight) := st in
  match e with
  | input i => (step n i, in_flight)
  | fetchName_called id =>
      match cached_name n id with
      | Some _ => (n, in_flight)
      | None => (n, id :: in_flight)
      end
  | fetchName_request_settles id response =>
      if decide (id ∈ in_flight)
      then ((fetchName_settled id response n).2, remove in_flight id)
      else (n, in_flight)
  end.

Definition event_run (st : Network * list string) (l : list Event)
    : Network * list string :=
  foldl event_step st l.
End Network_methods.

(** ** A concrete environment

    Identities and signing keys are encoded by prefixing [n]; the empty
    hex string does not encode.  Manifests and validator-list blobs are
    looked up in small tables; anything else does not decode. *)
Module Demo.
Definition manifests : list (string * Manifest.t) :=
  [ ("A/5", Manifest.mk "k1" 5);
    ("A/7", Manifest.mk "k2" 7);
    ("B/1", Manifest.mk "k4" 1);
    ("B/2", Manifest.mk "" 2) ].

Definition blobs : list (string * ValidatorList.t) :=
  [ ("v1", ValidatorList.mk 1 [ValidatorList.mk_entry "A" "A/5"]);
    ("v2", ValidatorList.mk 2 [ValidatorList.mk_entry "A" "A/7"]);
    ("v3", ValidatorList.mk 3 []);
    ("v4", ValidatorList.mk 4 [ValidatorList.mk_entry "B" "B/1"]);
    ("w1", ValidatorList.mk 1 [ValidatorList.mk_entry "A" "A/5";
                               ValidatorList.mk_entry "B" "garbage"]) ].

Fixpoint assoc {V} (l : list (string * V)) (k : string) : option V :=
  match l with
  | [] => None
  | (k', v) :: l' => if String.eqb k' k then Some v else assoc l' k
  end.

Definition ext : Externals := {|
  hexToBase58 := λ hex, if String.eqb hex "" then None else Some ("n" +:+ hex);
  decodeManifest := assoc manifests;
  parseValidatorList := assoc blobs;
  validatorDomain := λ id, if String.eqb id "nA" then Some "a.example" else None
|}.

Definition vote (key : string) : ValidationMessage.t :=
  ValidationMessage.mk None None 2147483649 true "LEDGERHASH" "100" None None None
    "SIG" 600000000 key None.

(** The fields as the class initialises them, but with
    [validationStreams] assigned an empty object: with the field left
    [undefined] no stream can be registered. *)
Definition start : Network := mkNetwork MAINNET [] (Some ∅) 0 ∅ ∅ ∅ [].
End Demo.

(** ** The example app

    [app.ts] buffers what the two callbacks of [Network] receive and
    writes the buffers out every ten minutes.  [JSON.stringify] and the
    [Logger] are not part of the sources: the two renderings and
    [logger.compress] are parameters, and a call of [logger.append] is
    recorded with its file name and data.  The interval function is
    [async]: it runs up to each [await], and callbacks can run before it
    resumes. *)
Module App.
Class Services := {
  stringify_unlData : UnlData.t → string;
  stringify_validation : ValidationMessage.t → string;
  compress : string → string
}.

Record State := mk {
  unlData : string;
  validationMessages : string;
  appended : list (string * string)
}.

Definition newline : string := String (Ascii.ascii_of_nat 10) EmptyString.

Section app.
Context `{Services}.

(** [onUnlData] *)
Definition onUnlData (data : UnlData.t) (st : State) : State :=
  mk (unlData st +:+ (stringify_unlData data +:+ newline))
     (validationMessages st) (appended st).

(** [onValidationReceived] *)
Definition onValidationReceived (m : ValidationMessage.t) (st : State) : State :=
  mk (unlData st)
     (validationMessages st +:+ (stringify_validation m +:+ newline))
     (appended st).

(** The interval function up to its first [await]:
    [logger.append('unl-data.log', unlData)]. *)
Definition flush_start (st : State) : State :=
  mk (unlData st) (validationMessages st)
     (appended st ++ [("unl-data.log", unlData st)]).

(** From the first [await] to the second: [unlData = ''] and the call
    [logger.compress(validationMessages)], whose argument is returned. *)
Definition flush_after_append (st : State) : State * string :=
  (mk "" (validationMessages st) (appended st), validationMessages st).

(** From the second [await] to the third: the file name is built from
    [Date.now()] and the compressed data is appended. *)
Definition flush_after_compress (compressedData now : string) (st : State) : State :=
  mk (unlData st) (validationMessages st)
     (appended st ++ [("validations-" +:+ now +:+ ".gz.b64", compressedData)]).

(** After the third [await]: [validationMessages = '']. *)
Definition flush_after_second_append (st : State) : State :=
  mk (unlData st) "" (appended st).

(** A call of one of the two callbacks. *)
Inductive Callback :=
| unl (data : UnlData.t)
| validation (m : ValidationMessage.t).

Definition callback (st : State) (c : Callback) : State :=
  match c with
  | unl data => onUnlData data st
  | validation m => onValidationReceived m st
  end.

Definition callbacks (st : State) (l : list Callback) : State := foldl callback st l.

(** One run of the interval function in which every [await] resolves,
    with the callbacks that run while it waits for the first append
    ([during_append]), for the compression ([during_compress]) and for
    the second append ([during_second_append]). *)
Definition flush (during_append during_compress during_second_append : list Callback)
    (now : string) (st : State) : State :=
  let st := callbacks (flush_start st) during_append in
  let '(st, uncompressed) := flush_after_append st in
  let st := callbacks st during_compress in
  let st := callbacks (flush_after_compress (compress uncompressed) now st)
                      during_second_append in
  flush_after_second_append st.

(** The lines the callbacks of a list add to each buffer. *)
Fixpoint unl_lines (l : list Callback) : string :=
  match l with
  | [] => ""
  | unl data :: l' => (stringify_unlData data +:+ newline) +:+ unl_lines l'
  | validation _ :: l' => unl_lines l'
  end.

Fixpoint validation_lines (l : list Callback) : string :=
  match l with
  | [] => ""
  | unl _ :: l' => validation_lines l'
  | validation m :: l' => (stringify_validation m +:+ newline) +:+ validation_lines l'
  end.
End app.
End App.

(** ** Vocabulary of the properties *)

(** [keeps R t]: whatever [t] does, returning or throwing, the state it
    leaves is [R]-related to the state it started in. *)
Definition keeps (R : relation Network) {A} (t : Task A) : Prop :=
  ∀ n, R n (t n).2.

(** An event other than a manifest message never reaches
    [onManifestReceived]. *)
Definition is_manifest_message (e : WsEvent) : bool :=
  match e with
  | ws_message (manifestReceived _) _ => true
  | _ => false
  end.

(** The stored version of the validator list does not go down. *)
Definition version_le : relation Network :=
  λ n n', lastValidatorListSequence n ≤ lastValidatorListSequence n'.

(** The registry fields are what they were. *)
Definition same_registry : relation Network :=
  λ n n', validators n' = validators n
          ∧ manifestKeys n' = manifestKeys n
          ∧ names n' = names n
          ∧ lastValidatorListSequence n' = lastValidatorListSequence n.

(** Only the settled request of [getUNL] and a manifest message reach
    code that writes the registry. *)
Definition writes_registry (i : Input) : bool :=
  match i with
  | request_settles _ => true
  | ws_emits _ e => is_manifest_message e
  | _ => false
  end.

(** A tracked validator stays tracked, with a sequence at least as
    high. *)
Definition sequence_kept (id : string) : relation Network :=
  λ n n', ∀ v, validators n !! id = Some v →
    ∃ v', validators n' !! id = Some v' ∧ Validator.Sequence v ≤ Validator.Sequence v'.

(** [onUnlData] was called zero or more times, each time with
    [isDuringStartup] equal to [b], and no other callback was called. *)
Definition only_onUnlData_with_flag (b : bool) : relation Network :=
  λ n n', ∃ new, calls n' = calls n ++ new
    ∧ Forall (λ c, ∃ data, c = OnUnlData data ∧ UnlData.isDuringStartup data = b) new.

(** The identities a validator list names, in its order. *)
Definition identities `{Externals} (l : list ValidatorList.entry) : list string :=
  omap (λ validator, hexToBase58 (ValidatorList.validation_public_key validator)) l.

(** Every external call the loop of [getUNL] can make for this entry
    returns. *)
Definition decodes `{Externals} (validator : ValidatorList.entry) : Prop :=
  ∃ id manifest signing_key,
    hexToBase58 (ValidatorList.validation_public_key validator) = Some id
    ∧ decodeManifest (ValidatorList.manifest validator) = Some manifest
    ∧ hexToBase58 (Manifest.SigningPubKey manifest) = Some signing_key.

(** The state one turn of the loop of [getUNL] leaves when it stores a
    manifest. *)
Definition manifest_stored (n : Network) (isDuringStartup : bool)
    (id signing_key : string) (Sequence : Z) (name : string)
    (nm : gmap string string) : Network :=
  mkNetwork (network n) (objects n) (validationStreams n)
    (lastValidatorListSequence n)
    (<[id := Validator.mk signing_key Sequence]> (validators n))
    nm
    (<[signing_key := id]> (manifestKeys n))
    (calls n ++ [OnUnlData (UnlData.mk isDuringStartup
                              (bool_decide (validators n !! id = None)) true
                              name id signing_key Sequence None)]).

(** The state [onManifestReceived] leaves when it applies a manifest
    to a validator whose signing key was [old]. *)
Definition manifest_applied (n : Network) (m : ManifestMessage.t)
    (old name : string) (nm : gmap string string) : Network :=
  mkNetwork (network n) (objects n) (validationStreams n)
    (lastValidatorListSequence n)
    (<[ManifestMessage.master_key m :=
         Validator.mk (ManifestMessage.signing_key m) (ManifestMessage.seq m)]> (validators n))
    nm
    (<[ManifestMessage.signing_key m := ManifestMessage.master_key m]>
       (delete old (manifestKeys n)))
    (calls n ++ [OnUnlData (UnlData.mk false false true name
                              (ManifestMessage.master_key m)
                              (ManifestMessage.signing_key m)
                              (ManifestMessage.seq m) (Some true))]).

(** The stored version is what it was. *)
Definition same_version : relation Network :=
  λ n n', lastValidatorListSequence n' = lastValidatorListSequence n.

(** The same identities are tracked. *)
Definition same_tracked : relation Network :=
  λ n n', ∀ id, is_Some (validators n' !! id) ↔ is_Some (validators n !! id).

(** A truthy name in [names] is still there. *)
Definition names_kept : relation Network :=
  λ n n', ∀ id name,
    names n !! id = Some name → truthy name = true → names n' !! id = Some name.

(** Every name in [names] is truthy. *)
Definition names_truthy (n : Network) : Prop :=
  ∀ id name, names n !! id = Some name → truthy name = true.

Definition names_truthy_kept : relation Network :=
  λ n n', names_truthy n → names_truthy n'.

(** What the calls of [onUnlData] made for a validator list look like:
    [reported ids n n' data] says that [data] is flagged as a new
    manifest from the list, names an identity of [ids], is flagged as a
    new validator only if the identity was not tracked in [n], and
    reports a sequence that [n'] holds or has gone beyond. *)
Definition reported (ids : list string) (n n' : Network) (data : UnlData.t) : Prop :=
  UnlData.isNewManifest data = true
  ∧ UnlData.isFromManifestsStream data = None
  ∧ UnlData.validation_public_key_base58 data ∈ ids
  ∧ (UnlData.isNewValidator data = true →
     validators n !! UnlData.validation_public_key_base58 data = None)
  ∧ ∃ v, validators n' !! UnlData.validation_public_key_base58 data = Some v
         ∧ UnlData.Sequence data ≤ Validator.Sequence v.

Definition roster_calls (ids : list string) : relation Network :=
  λ n n', (∀ id, sequence_kept id n n')
          ∧ ∃ new, calls n' = calls n ++ new
              ∧ Forall (λ c, ∃ data, c = OnUnlData data ∧ reported ids n n' data) new.

(** The address [subscribeToRippleds] builds for an IP address. *)
Definition address_of (ip : string) : string := "ws://" +:+ ip +:+ ":" +:+ WS_PORT.

(** What the callback of [dns.resolve4] leaves for one address: the
    state as it was if [validationStreams] is [undefined] or the address
    has a stream, a new stream otherwise. *)
Definition connected (address : string) (n : Network) : Network :=
  match validationStreams n with
  | None => n
  | Some streams =>
      match streams !! address with
      | Some _ => n
      | None =>
          set_validationStreams (<[address := length (objects n)]>)
            (set_objects (λ o, o ++ [new_ValidationStream address]) n)
      end
  end.

(** Every entry of [validationStreams] refers to a stream object built
    for that address. *)
Definition streams_wf (n : Network) : Prop :=
  ∀ address stream, stream_of n address = Some stream →
    ∃ s, objects n !! stream = Some s ∧ ValidationStream.address s = address.

(** [validationStreams] is [undefined] and no stream object exists. *)
Definition no_streams (n : Network) : Prop :=
  validationStreams n = None ∧ objects n = [].

Definition no_streams_kept : relation Network :=
  λ n n', no_streams n → no_streams n'.

(** The constructor options of a stream. *)
Definition same_options (s s' : ValidationStream.t) : Prop :=
  ValidationStream.address s' = ValidationStream.address s
  ∧ ValidationStream.useHeartbeat s' = ValidationStream.useHeartbeat s
  ∧ ValidationStream.serverPingInterval s' = ValidationStream.serverPingInterval s
  ∧ ValidationStream.latency s' = ValidationStream.latency s.

(** What the callback of [dns.resolve4] may have done: streams kept,
    objects only added, and a stream that is new is a fresh object
    added for its address; registry and calls untouched. *)
Definition streams_grown : relation Network :=
  λ n n',
    (∀ address stream, stream_of n address = Some stream →
                       stream_of n' address = Some stream)
    ∧ (∃ added, objects n' = objects n ++ added)
    ∧ (∀ address stream,
         stream_of n address = None →
         stream_of n' address = Some stream →
         (length (objects n) ≤ stream)%nat
         ∧ objects n' !! stream = Some (new_ValidationStream address))
    ∧ same_registry n n'
    ∧ calls n' = calls n.

(** The object of a stream is still there, with the options it was
    constructed with. *)
Definition options_kept (stream : nat) : relation Network :=
  λ n n', ∀ s, objects n !! stream = Some s →
    ∃ s', objects n' !! stream = Some s' ∧ same_options s s'.

Definition streams_wf_kept : relation Network :=
  λ n n', streams_wf n → streams_wf n'.

(** Nothing but the object of one stream has changed. *)
Definition only_stream_changed (stream : nat) : relation Network :=
  λ n n',
    (∀ k, k ≠ stream → objects n' !! k = objects n !! k)
    ∧ validationStreams n' = validationStreams n
    ∧ same_registry n n'
    ∧ calls n' = calls n.

(** What terminating or closing a stream leaves of its registration:
    the address is unregistered, the other objects and the registry
    are as before, and the calls made are calls of [onClose] for the
    address with the same cause, at least one. *)
Definition stream_unregistered (stream : nat) (address : string) (cause : Cause)
    : relation Network :=
  λ n n',
    validationStreams n' = delete address <$> validationStreams n
    ∧ (∀ k, k ≠ stream → objects n' !! k = objects n !! k)
    ∧ same_registry n n'
    ∧ ∃ more, calls n' = calls n ++ OnClose address cause :: more
              ∧ Forall (λ c, c = OnClose address cause) more.

(** The inputs that deliver a list of votes, each with its receive
    time, to one stream. *)
Definition deliver_votes (stream : nat) (votes : list (ValidationMessage.t * Z))
    : list Input :=
  (λ vote, ws_emits stream (ws_message (validationReceived vote.1) vote.2)) <$> votes.

(** The timer of a stream that has none pending is still not pending. *)
Definition timer_not_armed (stream : nat) : relation Network :=
  λ n n', ∀ s, objects n !! stream = Some s →
    ValidationStream.pingTimeout s = None →
    ∃ s', objects n' !! stream = Some s'
          ∧ same_options s s'
          ∧ ValidationStream.pingTimeout s' = None.

(** The name a call of [onUnlData] reports for a validator is the
    identity itself or the truthy name that [names] holds for it. *)
Definition named (n : Network) (data : UnlData.t) : Prop :=
  UnlData.validatorName data = UnlData.validation_public_key_base58 data
  ∨ (names n !! UnlData.validation_public_key_base58 data
     = Some (UnlData.validatorName data)
     ∧ truthy (UnlData.validatorName data) = true).

(** Truthy names are kept and every call of [onUnlData] made on the
    way reports a name that [names] now holds, or the identity. *)
Definition calls_named : relation Network :=
  λ n n',
    names_kept n n'
    ∧ ∃ new, calls n' = calls n ++ new
        ∧ Forall (λ c, ∀ data, c = OnUnlData data → named n' data) new.

(** * Properties *)

(** ** Relations every step of a handler keeps *)

Section keeps.
Context (R : relation Network) `{!PreOrder R}.

Lemma keeps_ret {A} (a : A) : keeps R (ret a).
Proof. intros n. reflexivity. Qed.

Lemma keeps_throw {A} what : keeps R (@throw A what).
Proof. intros n. reflexivity. Qed.

Lemma keeps_get : keeps R get.
Proof. intros n. reflexivity. Qed.

Lemma keeps_call {A} what (r : option A) : keeps R (call what r).
Proof. destruct r; [apply keeps_ret | apply keeps_throw]. Qed.

Lemma keeps_modify f : (∀ n, R n (f n)) → keeps R (modify f).
Proof. intros H n. apply H. Qed.

Lemma keeps_bind {A B} (m : Task A) (k : A → Task B) :
  keeps R m → (∀ a, keeps R (k a)) → keeps R (bind m k).
Proof.
  intros Hm Hk n. unfold bind. specialize (Hm n).
  destruct (m n) as [[a|e] n']; simpl in *; [|done].
  etransitivity; [exact Hm | apply Hk].
Qed.

Lemma keeps_for_of {A} (l : list A) (body : A → Task unit) :
  (∀ x, keeps R (body x)) → keeps R (for_of l body).
Proof.
  intros H. induction l as [|x l IH]; simpl.
  - apply keeps_ret.
  - apply keeps_bind; [apply H | intros _; exact IH].
Qed.
End keeps.

(** Peel one layer of a handler: binds, branches, primitive steps. *)
Ltac keeps_step :=
  lazymatch goal with
  | |- keeps _ (mbind _ _) => unfold mbind, Task_bind
  | |- keeps _ (bind _ _) => apply keeps_bind; [tc_solve | try done | intros ?]
  | |- keeps _ (ret _) => apply keeps_ret; tc_solve
  | |- keeps _ (throw _) => apply keeps_throw; tc_solve
  | |- keeps _ get => apply keeps_get; tc_solve
  | |- keeps _ (call _ _) => apply keeps_call; tc_solve
  | |- keeps _ (for_of _ _) => apply keeps_for_of; [tc_solve | intros ?]
  | |- keeps _ (match ?x with _ => _ end) => destruct x eqn:?
  end.
Ltac keeps_go := repeat keeps_step.

(** Run the plumbing of a handler on the state it is applied to. *)
Ltac task_eval :=
  cbv beta iota zeta delta [mbind Task_bind bind call get modify ret throw].

(** The listeners of a stream keep whatever its callbacks keep, as long
    as the relation does not look at [objects]. *)
Section keeps_stream.
Context (R : relation Network) `{!PreOrder R}.
Context (cb : ValidationStreamCallbacks) (this : nat).
Hypothesis R_objects : ∀ f n, R n (set_objects f n).
Hypothesis cb_vote : ∀ m, keeps R (onValidationReceived cb m).
Hypothesis cb_manifest : ∀ m, keeps R (onManifestReceived cb m).
Hypothesis cb_close : ∀ c, keeps R (onClose cb c).

Lemma keeps_update_this f : keeps R (update_this this f).
Proof. apply keeps_modify. intros n. apply R_objects. Qed.

Lemma keeps_ws_terminate : keeps R (ws_terminate this).
Proof. apply keeps_update_this. Qed.

Lemma keeps_message dataObj now : keeps R (message cb this dataObj now).
Proof.
  destruct dataObj; simpl; keeps_go; auto using keeps_ws_terminate.
Qed.

Lemma keeps_listeners s e : Forall (keeps R) (listeners cb this s e).
Proof.
  destruct e; simpl; destruct (ValidationStream.useHeartbeat s); simpl;
    repeat constructor;
    unfold subscribe, heartbeat, heartbeat_close, plain_close;
    keeps_go; auto using keeps_update_this, keeps_message.
Qed.

Lemma keeps_emit e : keeps R (emit cb this e).
Proof.
  unfold emit, mbind, Task_bind.
  apply keeps_bind; [tc_solve | apply keeps_get; tc_solve | intros n].
  destruct (objects n !! this) as [s|]; [|keeps_go].
  apply keeps_bind; [tc_solve | | intros _].
  - destruct e; simpl; keeps_go; apply keeps_update_this.
  - pose proof (keeps_listeners s e) as H.
    induction H as [|l ls Hl _ IH]; simpl; [keeps_go|].
    apply keeps_bind; [tc_solve | exact Hl | intros _; exact IH].
Qed.

Lemma keeps_pingTimeout_expires : keeps R (pingTimeout_expires cb this).
Proof.
  unfold pingTimeout_expires, pingTimeout_callback. keeps_go;
    auto using keeps_update_this, keeps_ws_terminate.
Qed.
End keeps_stream.

Lemma emit_without_onManifestReceived cb this e :
  is_manifest_message e = false →
  emit cb this e =
  emit {| onValidationReceived := onValidationReceived cb;
          onManifestReceived := λ _, ret tt;
          onClose := onClose cb |} this e.
Proof. destruct e as [| | | |[]]; done. Qed.

Lemma keeps_emit_other R `{!PreOrder R} cb this e :
  (∀ f n, R n (set_objects f n)) →
  (∀ m, keeps R (onValidationReceived cb m)) →
  (∀ c, keeps R (onClose cb c)) →
  is_manifest_message e = false →
  keeps R (emit cb this e).
Proof.
  intros ??? He. rewrite (emit_without_onManifestReceived _ _ _ He).
  apply keeps_emit; try done. intros m; simpl. by apply keeps_ret.
Qed.

(** The handlers of [Network] keep a relation that does not look at the
    fields they write. *)
Section keeps_network.
Context {ext : Externals}.
Context (R : relation Network) `{!PreOrder R}.
Hypothesis R_objects : ∀ f n, R n (set_objects f n).
Hypothesis R_validationStreams : ∀ f n, R n (set_validationStreams f n).
Hypothesis R_names : ∀ f n, R n (set_names f n).
Hypothesis R_calls : ∀ c n, R n (add_call c n).
Hypothesis R_validators : ∀ f n, R n (set_validators f n).
Hypothesis R_manifestKeys : ∀ f n, R n (set_manifestKeys f n).

Lemma keeps_fetchName id : keeps R (fetchName id).
Proof. unfold fetchName, fetchName_request, fetchName_settled. keeps_go; by apply keeps_modify. Qed.

Lemma keeps_onCloseAddress address cause : keeps R (onCloseAddress address cause).
Proof. unfold onCloseAddress. keeps_go; by apply keeps_modify. Qed.

Lemma keeps_resolve4_callback r : keeps R (resolve4_callback r).
Proof. unfold resolve4_callback. keeps_go; by apply keeps_modify. Qed.

Lemma keeps_Network_onManifestReceived m : keeps R (Network_onManifestReceived m).
Proof.
  unfold Network_onManifestReceived. keeps_go;
    auto using keeps_fetchName; by apply keeps_modify.
Qed.

Lemma keeps_stream_onValidationReceived address m :
  keeps R (onValidationReceived (stream_callbacks address) m).
Proof. simpl. by apply keeps_modify. Qed.

Lemma keeps_stream_onClose address cause :
  keeps R (onClose (stream_callbacks address) cause).
Proof. simpl. keeps_go; auto using keeps_onCloseAddress; by apply keeps_modify. Qed.

Lemma keeps_getUNL_validator b td validator : keeps R (getUNL_validator b td validator).
Proof.
  unfold getUNL_validator. keeps_go;
    auto using keeps_fetchName; by apply keeps_modify.
Qed.

Lemma keeps_getUNL_validators b l : ∀ td, keeps R (getUNL_validators b td l).
Proof.
  induction l as [|validator l IH]; intros td; simpl; keeps_go;
    auto using keeps_getUNL_validator.
Qed.

Lemma keeps_delete_validators td :
  keeps R (for_of td (λ validator, modify (set_validators (delete validator)))).
Proof. keeps_go. by apply keeps_modify. Qed.
End keeps_network.

(** ** [indexOf] and [remove] *)

Lemma indexOf_ge array element : -1 ≤ indexOf array element.
Proof.
  induction array as [|x array IH]; simpl; [lia|].
  destruct (decide (x = element)); [lia|].
  destruct (decide (indexOf array element = -1)); lia.
Qed.

Lemma remove_cons x array element :
  remove (x :: array) element
  = if decide (x = element) then array else x :: remove array element.
Proof.
  unfold remove; simpl. pose proof (indexOf_ge array element).
  destruct (decide (x = element)); [done|].
  destruct (decide (indexOf array element = -1)) as [Hi|Hi].
  - rewrite Hi, !decide_False by lia. done.
  - rewrite !decide_True by lia.
    replace (Z.to_nat (indexOf array element + 1))
      with (S (Z.to_nat (indexOf array element))) by lia.
    done.
Qed.

Lemma elem_of_remove array element x :
  NoDup array → x ∈ remove array element ↔ x ∈ array ∧ x ≠ element.
Proof.
  induction array as [|y array IH]; intros Hnd.
  - unfold remove; simpl. rewrite elem_of_nil. tauto.
  - apply NoDup_cons in Hnd as [Hy Hnd]. rewrite remove_cons.
    destruct (decide (y = element)) as [->|Hne].
    + rewrite elem_of_cons. split; [|intros [[?|?] ?]; done].
      intros Hx. split; [by right|]. by intros ->.
    + rewrite !elem_of_cons, IH by done. split.
      * intros [->|[? ?]]; split; auto.
      * intros [[->|?] ?]; auto.
Qed.

Lemma NoDup_remove array element : NoDup array → NoDup (remove array element).
Proof.
  induction array as [|y array IH]; intros Hnd.
  - done.
  - pose proof Hnd as [Hy Hnd']%NoDup_cons. rewrite remove_cons.
    destruct (decide (y = element)); [done|].
    apply NoDup_cons. split; [|by apply IH].
    rewrite elem_of_remove by done. by intros [? _].
Qed.

Section properties.
Context {ext : Externals}.

(** [getUNL_then] by cases: the blob does not parse, the list is not
    newer, or the version is stored and the two loops run. *)
Lemma getUNL_then_cases blob n :
  getUNL_then blob n =
  match parseValidatorList blob with
  | None => (Thrown "JSON.parse", n)
  | Some validatorList =>
      if ValidatorList.sequence validatorList <=? lastValidatorListSequence n
      then (Returned tt, n)
      else
        bind (getUNL_validators
                (bool_decide (length (map_to_list (validators n)).*1 = 0%nat))
                (map_to_list (validators n)).*1
                (ValidatorList.validators validatorList))
             (λ validatorsToDelete,
                for_of validatorsToDelete
                  (λ validator, modify (set_validators (delete validator))))
             (set_lastValidatorListSequence (ValidatorList.sequence validatorList) n)
  end.
Proof.
  unfold getUNL_then, mbind, Task_bind, bind at 1, call.
  destruct (parseValidatorList blob) as [validatorList|]; simpl; [|done].
  unfold bind at 1, get; simpl.
  destruct (ValidatorList.sequence validatorList <=? lastValidatorListSequence n); done.
Qed.

(** [fetchName] returns, and writes nothing but [names]. *)
Lemma fetchName_outcome id n :
  ∃ name nm, fetchName id n = (Returned name, set_names (λ _, nm) n).
Proof.
  assert (n = set_names (λ _, names n) n) as Hn by (by destruct n).
  unfold fetchName, fetchName_request, fetchName_settled, cached_name. task_eval.
  destruct (names n !! id) as [name|]; [destruct (truthy name)|];
    try (exists name, (names n); by rewrite <- Hn);
    (destruct (validatorDomain id) as [domain|]; [destruct (truthy domain)|]);
    try (exists id, (names n); by rewrite <- Hn);
    by exists domain, (<[id:=domain]> (names n)).
Qed.

(** Assigning both fields of a stored validator is storing a new one. *)
Lemma alter_both_fields (m : gmap string Validator.t) id v signing_key Sequence :
  m !! id = Some v →
  alter (λ v, Validator.mk (Validator.signing_key v) Sequence) id
    (alter (λ v, Validator.mk signing_key (Validator.Sequence v)) id m)
  = <[id := Validator.mk signing_key Sequence]> m.
Proof.
  intros Hv. apply map_eq. intros k. destruct (decide (k = id)) as [->|Hk].
  - rewrite !lookup_alter_eq, Hv, lookup_insert_eq. done.
  - rewrite !lookup_alter_ne, lookup_insert_ne by done. done.
Qed.

(** One turn of the loop of [getUNL]: it throws before writing, or
    skips a manifest that is not newer, or stores the manifest. *)
Lemma getUNL_validator_outcome b td validator n :
  (∃ what, getUNL_validator b td validator n = (Thrown what, n)
           ∧ (hexToBase58 (ValidatorList.validation_public_key validator) = None
              ∨ decodeManifest (ValidatorList.manifest validator) = None
              ∨ ∃ id manifest,
                  hexToBase58 (ValidatorList.validation_public_key validator) = Some id
                  ∧ decodeManifest (ValidatorList.manifest validator) = Some manifest
                  ∧ (∀ v, validators n !! id = Some v →
                          Validator.Sequence v < Manifest.Sequence manifest)
                  ∧ hexToBase58 (Manifest.SigningPubKey manifest) = None))
  ∨ (∃ id manifest v,
       hexToBase58 (ValidatorList.validation_public_key validator) = Some id
       ∧ decodeManifest (ValidatorList.manifest validator) = Some manifest
       ∧ validators n !! id = Some v
       ∧ Manifest.Sequence manifest ≤ Validator.Sequence v
       ∧ getUNL_validator b td validator n = (Returned (remove td id), n))
  ∨ (∃ id manifest signing_key name nm,
       hexToBase58 (ValidatorList.validation_public_key validator) = Some id
       ∧ decodeManifest (ValidatorList.manifest validator) = Some manifest
       ∧ hexToBase58 (Manifest.SigningPubKey manifest) = Some signing_key
       ∧ (∀ v, validators n !! id = Some v →
               Validator.Sequence v < Manifest.Sequence manifest)
       ∧ getUNL_validator b td validator n
         = (Returned (remove td id),
            manifest_stored n b id signing_key (Manifest.Sequence manifest) name nm)).
Proof.
  destruct (getUNL_validator b td validator n) as [o n'] eqn:Hr. revert Hr.
  unfold getUNL_validator. task_eval.
  destruct (hexToBase58 (ValidatorList.validation_public_key validator)) as [id|] eqn:Hid;
    [|intros [= <- <-]; left; eexists; split; [done | by left]].
  destruct (decodeManifest (ValidatorList.manifest validator)) as [manifest|] eqn:Hm;
    [|intros [= <- <-]; left; eexists; split; [done | by right; left]].
  destruct (validators n !! id) as [v|] eqn:Hv.
  - destruct (Z.ltb_spec (Validator.Sequence v) (Manifest.Sequence manifest)) as [Hlt|Hge].
    + destruct (hexToBase58 (Manifest.SigningPubKey manifest)) as [signing_key|] eqn:Hk.
      2: { intros [= <- <-]; left; eexists; split; [done|]. right; right.
           exists id, manifest. repeat split; try done. intros ??. by simplify_eq. }
      match goal with |- context [fetchName id ?n1] =>
        destruct (fetchName_outcome id n1) as (name & nm & ->) end.
      intros [= <- <-]. right; right.
      exists id, manifest, signing_key, name, nm. repeat split; try done.
      { intros ??. by simplify_eq. }
      unfold manifest_stored, set_manifestKeys, add_call, set_names, set_validators; simpl.
      rewrite (alter_both_fields _ _ v), Hv by done. done.
    + intros [= <- <-]. right; left. exists id, manifest, v. done.
  - destruct (hexToBase58 (Manifest.SigningPubKey manifest)) as [signing_key|] eqn:Hk.
    2: { intros [= <- <-]; left; eexists; split; [done|]. right; right.
         exists id, manifest. repeat split; try done. intros ??. congruence. }
    match goal with |- context [fetchName id ?n1] =>
      destruct (fetchName_outcome id n1) as (name & nm & ->) end.
    intros [= <- <-]. right; right.
    exists id, manifest, signing_key, name, nm. repeat split; try done.
    { intros ??. congruence. }
    unfold manifest_stored, set_manifestKeys, add_call, set_names, set_validators; simpl.
    rewrite Hv. done.
Qed.

(** [onManifestReceived]: nothing happens, or the manifest is applied
    to a tracked validator with a lower sequence. *)
Lemma Network_onManifestReceived_outcome m n :
  ((validators n !! ManifestMessage.master_key m = None
    ∨ ∃ v, validators n !! ManifestMessage.master_key m = Some v
           ∧ ManifestMessage.seq m ≤ Validator.Sequence v)
   ∧ Network_onManifestReceived m n = (Returned tt, n))
  ∨ (∃ v name nm,
       validators n !! ManifestMessage.master_key m = Some v
       ∧ Validator.Sequence v < ManifestMessage.seq m
       ∧ Network_onManifestReceived m n
         = (Returned tt, manifest_applied n m (Validator.signing_key v) name nm)).
Proof.
  destruct (Network_onManifestReceived m n) as [o n'] eqn:Hr. revert Hr.
  unfold Network_onManifestReceived. task_eval.
  destruct (validators n !! ManifestMessage.master_key m) as [v|] eqn:Hv;
    [|intros [= <- <-]; left; split; [by left | done]].
  destruct (Z.ltb_spec (Validator.Sequence v) (ManifestMessage.seq m)) as [Hlt|Hge];
    [|intros [= <- <-]; left; split; [right; by exists v | done]].
  match goal with |- context [fetchName _ ?n1] =>
    destruct (fetchName_outcome (ManifestMessage.master_key m) n1) as (name & nm & ->) end.
  intros [= <- <-]. right. exists v, name, nm. repeat split; try done.
  unfold manifest_applied, set_manifestKeys, add_call, set_names, set_validators; simpl.
  rewrite (alter_both_fields _ _ v) by done. done.
Qed.

(** A message of a stream that exists runs the message listener with
    the callbacks of [subscribeToRippleds]. *)
Lemma handle_ws_message n stream s dataObj now :
  objects n !! stream = Some s →
  handle (ws_emits stream (ws_message dataObj now)) n
  = bind (message (stream_callbacks (ValidationStream.address s)) stream dataObj now)
         (λ _, ret tt) n.
Proof.
  intros Hs. unfold handle, callbacks_of, emit, mbind, Task_bind.
  unfold bind at 1, get; simpl. unfold bind at 1, get; simpl.
  rewrite Hs; simpl. done.
Qed.

Lemma handle_ws_no_stream n stream e :
  objects n !! stream = None →
  handle (ws_emits stream e) n = (Returned tt, n).
Proof.
  intros Hs. unfold handle, callbacks_of, emit, mbind, Task_bind.
  unfold bind at 1, get; simpl. unfold bind at 1, get; simpl.
  rewrite Hs; simpl. done.
Qed.

(** *** The stored version of the validator list *)

#[local] Instance version_le_preorder : PreOrder version_le.
Proof. split; unfold version_le; [intros n | intros n1 n2 n3]; lia. Qed.

Lemma version_le_getUNL settled : keeps version_le (getUNL settled).
Proof.
  intros n. destruct settled as [blob|]; simpl; [|done].
  rewrite getUNL_then_cases.
  destruct (parseValidatorList blob) as [validatorList|]; simpl; [|done].
  destruct (Z.leb_spec (ValidatorList.sequence validatorList)
                       (lastValidatorListSequence n)); simpl; [done|].
  transitivity (set_lastValidatorListSequence (ValidatorList.sequence validatorList) n).
  { unfold version_le; simpl; lia. }
  apply keeps_bind; [tc_solve | | intros td].
  - apply keeps_getUNL_validators; try tc_solve; intros; unfold version_le; simpl; lia.
  - apply keeps_delete_validators; try tc_solve; intros; unfold version_le; simpl; lia.
Qed.

Lemma version_le_handle i : keeps version_le (handle i).
Proof.
  destruct i; simpl.
  - apply version_le_getUNL.
  - apply keeps_resolve4_callback; try tc_solve; intros; unfold version_le; simpl; lia.
  - keeps_go. apply keeps_emit; try tc_solve; intros; simpl;
      first [ apply keeps_Network_onManifestReceived
            | apply keeps_stream_onClose
            | apply keeps_modify
            | idtac ];
      try tc_solve; intros; unfold version_le; simpl; lia.
  - keeps_go. apply keeps_pingTimeout_expires; try tc_solve; intros; simpl;
      first [ apply keeps_stream_onClose | idtac ];
      try tc_solve; intros; unfold version_le; simpl; lia.
Qed.

Lemma version_le_run l : ∀ n, version_le n (run n l).
Proof.
  induction l as [|i l IH]; intros n; simpl; [done|].
  etransitivity; [apply (version_le_handle i n) | apply IH].
Qed.

(** *** The registry fields *)

#[local] Instance same_registry_preorder : PreOrder same_registry.
Proof.
  split; unfold same_registry; [intros n | intros n1 n2 n3]; [done|].
  intros (-> & -> & -> & ->) (-> & -> & -> & ->). done.
Qed.

Lemma same_registry_handle i :
  writes_registry i = false → keeps same_registry (handle i).
Proof.
  destruct i; simpl; intros Hi; [done| | |].
  - apply keeps_resolve4_callback; try tc_solve; done.
  - keeps_go. apply keeps_emit_other; try tc_solve; try done; intros;
      first [ apply keeps_stream_onValidationReceived
            | apply keeps_stream_onClose ]; try tc_solve; done.
  - keeps_go. apply keeps_pingTimeout_expires; try tc_solve; try done; intros.
    apply keeps_stream_onClose; try tc_solve; done.
Qed.
(** *** The sequence of a tracked validator *)

#[local] Instance sequence_kept_preorder id : PreOrder (sequence_kept id).
Proof.
  split; unfold sequence_kept.
  - intros n v Hv. by exists v.
  - intros n1 n2 n3 H12 H23 v Hv.
    destruct (H12 v Hv) as (v2 & Hv2 & ?). destruct (H23 v2 Hv2) as (v3 & Hv3 & ?).
    exists v3. split; [done | lia].
Qed.

Lemma sequence_kept_same_validators id n n' :
  validators n' = validators n → sequence_kept id n n'.
Proof. intros Heq v Hv. exists v. by rewrite Heq. Qed.

Lemma sequence_kept_getUNL_validator id b td validator :
  keeps (sequence_kept id) (getUNL_validator b td validator).
Proof.
  intros n.
  destruct (getUNL_validator_outcome b td validator n)
    as [(what & -> & _) | [(id' & manifest & v & _ & _ & _ & _ & ->)
       | (id' & manifest & signing_key & name & nm & _ & _ & _ & Hlt & ->)]];
    unfold manifest_stored; simpl; try done.
  intros v Hv; simpl. destruct (decide (id' = id)) as [->|Hne].
  - rewrite lookup_insert_eq. eexists; split; [done|]. simpl.
    specialize (Hlt v Hv). lia.
  - rewrite lookup_insert_ne by done. by exists v.
Qed.

Lemma sequence_kept_getUNL_validators id b l :
  ∀ td, keeps (sequence_kept id) (getUNL_validators b td l).
Proof.
  induction l as [|validator l IH]; intros td; simpl; keeps_go;
    auto using sequence_kept_getUNL_validator.
Qed.

Lemma sequence_kept_Network_onManifestReceived id m :
  keeps (sequence_kept id) (Network_onManifestReceived m).
Proof.
  intros n.
  destruct (Network_onManifestReceived_outcome m n)
    as [[_ ->] | (v0 & name & nm & Hv0 & Hlt & ->)];
    unfold manifest_applied; simpl; [done|].
  intros v Hv; simpl. destruct (decide (ManifestMessage.master_key m = id)) as [<-|Hne].
  - rewrite lookup_insert_eq. eexists; split; [done|]. simpl.
    assert (v = v0) as -> by congruence. lia.
  - rewrite lookup_insert_ne by done. by exists v.
Qed.

(** The loop that deletes [validatorsToDelete]. *)
Lemma delete_validators_result td : ∀ n,
  for_of td (λ validator, modify (set_validators (delete validator))) n
  = (Returned tt, set_validators (λ m, foldl (λ m k, delete k m) m td) n).
Proof.
  induction td as [|k td IH]; intros n; simpl.
  - by destruct n.
  - unfold bind, modify; simpl. rewrite IH. by destruct n.
Qed.

Lemma lookup_foldl_delete {V} (td : list string) : ∀ (m : gmap string V) id,
  foldl (λ m k, delete k m) m td !! id
  = if decide (id ∈ td) then None else m !! id.
Proof.
  induction td as [|k td IH]; intros m id; simpl; [done|].
  rewrite IH. destruct (decide (id = k)) as [->|Hne].
  - rewrite lookup_delete_eq, (decide_True (P := k ∈ k :: td)) by (by left).
    by destruct (decide (k ∈ td)).
  - rewrite lookup_delete_ne by done.
    destruct (decide (id ∈ td)) as [Hin|Hin].
    + by rewrite decide_True by (by right).
    + rewrite decide_False; [done|]. by intros [?|?]%elem_of_cons.
Qed.

(** A settled request never lowers the sequence of a validator that is
    tracked before and after. *)
Lemma sequence_not_lowered_getUNL id settled n v v' :
  validators n !! id = Some v →
  validators (getUNL settled n).2 !! id = Some v' →
  Validator.Sequence v ≤ Validator.Sequence v'.
Proof.
  intros Hv. destruct settled as [blob|]; simpl; [|by intros; simplify_eq].
  rewrite getUNL_then_cases.
  destruct (parseValidatorList blob) as [validatorList|]; simpl; [|by intros; simplify_eq].
  destruct (_ <=? _); simpl; [by intros; simplify_eq|].
  unfold bind.
  match goal with |- context [getUNL_validators ?b ?td ?l ?n1] =>
    pose proof (sequence_kept_getUNL_validators id b l td n1 v Hv) as (v1 & Hv1 & Hle);
    destruct (getUNL_validators b td l n1) as [[td'|what] n2] end; simpl in *.
  - rewrite delete_validators_result; simpl. rewrite lookup_foldl_delete.
    case_decide; [done|]. intros. assert (v' = v1) as -> by congruence. done.
  - intros. assert (v' = v1) as -> by congruence. done.
Qed.

Lemma sequence_kept_handle_stream id i :
  (∀ settled, i ≠ request_settles settled) →
  keeps (sequence_kept id) (handle i).
Proof.
  assert (∀ f n, sequence_kept id n (set_objects f n)) as Ho
    by (intros; by apply sequence_kept_same_validators).
  assert (∀ f n, sequence_kept id n (set_validationStreams f n)) as Hs
    by (intros; by apply sequence_kept_same_validators).
  assert (∀ c n, sequence_kept id n (add_call c n)) as Hc
    by (intros; by apply sequence_kept_same_validators).
  destruct i; simpl; intros Hi; [by destruct (Hi settled)| | |].
  - apply keeps_resolve4_callback; try tc_solve; done.
  - keeps_go. apply keeps_emit; try tc_solve; try done; intros;
      first [ apply keeps_stream_onValidationReceived; try tc_solve; done
            | apply keeps_stream_onClose; try tc_solve; done
            | apply sequence_kept_Network_onManifestReceived ].
  - keeps_go. apply keeps_pingTimeout_expires; try tc_solve; try done; intros.
    apply keeps_stream_onClose; try tc_solve; done.
Qed.

Lemma sequence_not_lowered_step id n i v v' :
  validators n !! id = Some v →
  validators (step n i) !! id = Some v' →
  Validator.Sequence v ≤ Validator.Sequence v'.
Proof.
  intros Hv Hv'.
  destruct (decide (is_Some (match i with request_settles s => Some s | _ => None end)))
    as [[settled Hi]|Hi].
  - destruct i; try done. by eapply sequence_not_lowered_getUNL.
  - destruct (sequence_kept_handle_stream id i) with (n := n) (v := v) as (v1 & Hv1 & ?);
      [intros settled ->; apply Hi; by eexists | done |].
    unfold step in Hv'. assert (v' = v1) as -> by congruence. done.
Qed.

Lemma sequence_not_lowered_run id l : ∀ n v v',
  validators n !! id = Some v →
  (∀ l1, l1 `prefix_of` l → is_Some (validators (run n l1) !! id)) →
  validators (run n l) !! id = Some v' →
  Validator.Sequence v ≤ Validator.Sequence v'.
Proof.
  induction l as [|i l IH]; intros n v v' Hv Htracked Hv'; simpl in *.
  - assert (v' = v) as -> by congruence. done.
  - destruct (Htracked [i]) as [v1 Hv1]; [by apply prefix_cons, prefix_nil|].
    simpl in Hv1. pose proof (sequence_not_lowered_step id n i v v1 Hv Hv1).
    assert (Validator.Sequence v1 ≤ Validator.Sequence v'); [|lia].
    apply (IH (step n i) v1 v' Hv1); [|done].
    intros l1 Hl1. apply (Htracked (i :: l1)). by apply prefix_cons.
Qed.

(** *** The startup flag of a validator list *)

#[local] Instance only_onUnlData_with_flag_preorder b :
  PreOrder (only_onUnlData_with_flag b).
Proof.
  split; unfold only_onUnlData_with_flag.
  - intros n. exists []. by rewrite app_nil_r.
  - intros n1 n2 n3 (new1 & -> & H1) (new2 & -> & H2).
    exists (new1 ++ new2). rewrite app_assoc. split; [done | by apply Forall_app].
Qed.

Lemma only_onUnlData_same_calls b n n' :
  calls n' = calls n → only_onUnlData_with_flag b n n'.
Proof. intros Heq. exists []. by rewrite app_nil_r. Qed.

Lemma only_onUnlData_getUNL_validator b td validator :
  keeps (only_onUnlData_with_flag b) (getUNL_validator b td validator).
Proof.
  intros n.
  destruct (getUNL_validator_outcome b td validator n)
    as [(what & -> & _) | [(id' & manifest & v & _ & _ & _ & _ & ->)
       | (id' & manifest & signing_key & name & nm & _ & _ & _ & Hlt & ->)]];
    unfold manifest_stored; simpl; try done.
  eexists; split; [done|]. repeat constructor. by eexists.
Qed.

Lemma only_onUnlData_getUNL_validators b l :
  ∀ td, keeps (only_onUnlData_with_flag b) (getUNL_validators b td l).
Proof.
  induction l as [|validator l IH]; intros td; simpl; keeps_go;
    auto using only_onUnlData_getUNL_validator.
Qed.

Lemma startup_flag_empty (n : Network) :
  bool_decide (length (map_to_list (validators n)).*1 = 0%nat) = true
  ↔ validators n = ∅.
Proof.
  rewrite bool_decide_eq_true, length_fmap, length_zero_iff_nil.
  apply map_to_list_empty_iff.
Qed.

(** *** The loop of [getUNL] over the entries *)

Lemma identities_cons validator l id :
  hexToBase58 (ValidatorList.validation_public_key validator) = Some id →
  identities (validator :: l) = id :: identities l.
Proof. intros Hid. unfold identities; simpl. by rewrite Hid. Qed.

Lemma getUNL_validators_app b l1 l2 : ∀ td n,
  getUNL_validators b td (l1 ++ l2) n
  = bind (getUNL_validators b td l1) (λ td', getUNL_validators b td' l2) n.
Proof.
  induction l1 as [|validator l1 IH]; intros td n; simpl; [done|].
  unfold mbind, Task_bind, bind.
  destruct (getUNL_validator b td validator n) as [[td1|what] n1]; [|done].
  apply IH.
Qed.

(** What a loop that returns has done: [validatorsToDelete] lost the
    listed identities; [validators] gained them and lost nothing;
    every entry of [manifestKeys] is as before or maps to a listed
    identity; the stored version is untouched. *)
Lemma getUNL_validators_returned b l : ∀ td n td' n',
  NoDup td →
  getUNL_validators b td l n = (Returned td', n') →
  NoDup td'
  ∧ (∀ id, id ∈ td' ↔ id ∈ td ∧ id ∉ identities l)
  ∧ (∀ id, is_Some (validators n' !! id)
           ↔ is_Some (validators n !! id) ∨ id ∈ identities l)
  ∧ (∀ key, manifestKeys n' !! key = manifestKeys n !! key
            ∨ ∃ id, manifestKeys n' !! key = Some id ∧ id ∈ identities l)
  ∧ lastValidatorListSequence n' = lastValidatorListSequence n.
Proof.
  induction l as [|validator l IH]; intros td n td' n' Hnd; cbn [getUNL_validators].
  - intros [= <- <-]. split; [done|]. split; [|split; [|split]].
    + intros id. split; [intros ?; split; [done | apply not_elem_of_nil] | by intros [? _]].
    + intros id. split; [by left | by intros [?|?%elem_of_nil]].
    + by left.
    + done.
  - unfold mbind, Task_bind, bind.
    destruct (getUNL_validator_outcome b td validator n)
      as [(what & -> & _) | [(id0 & manifest & v & Hid & _ & Hv & _ & ->)
         | (id0 & manifest & signing_key & name & nm & Hid & _ & _ & _ & ->)]];
      [done| |]; intros Hl;
      apply IH in Hl as (Hnd' & Htd & Hval & Hkeys & Hlast);
      try (by apply NoDup_remove);
      rewrite (identities_cons _ _ _ Hid);
      (split; [done|]); (split; [|split; [|split]]).
    + intros id. rewrite Htd, elem_of_remove, elem_of_cons by done. tauto.
    + intros id. rewrite Hval, elem_of_cons. split; [tauto|].
      intros [?|[->|?]]; [by left | left; by exists v | by right].
    + intros key. destruct (Hkeys key) as [?|(id & ? & ?)]; [by left|].
      right. exists id. split; [done | by right].
    + done.
    + intros id. rewrite Htd, elem_of_remove, elem_of_cons by done. tauto.
    + intros id. rewrite Hval, elem_of_cons. unfold manifest_stored; simpl.
      rewrite lookup_insert_is_Some. destruct (decide (id0 = id)); intuition congruence.
    + intros key. destruct (Hkeys key) as [Hk|(id & ? & ?)].
      * rewrite Hk. unfold manifest_stored; simpl.
        destruct (decide (signing_key = key)) as [->|].
        -- right. exists id0. rewrite lookup_insert_eq. split; [done | by left].
        -- left. by rewrite lookup_insert_ne.
      * right. exists id. split; [done | by right].
    + by rewrite Hlast.
Qed.

Lemma getUNL_validators_returns b l :
  Forall decodes l → ∀ td n, ∃ td' n', getUNL_validators b td l n = (Returned td', n').
Proof.
  induction 1 as [|validator l (id & manifest & signing_key & Hid & Hm & Hk) _ IH];
    intros td n; simpl; [by eexists _, _|].
  unfold mbind, Task_bind, bind.
  destruct (getUNL_validator_outcome b td validator n)
    as [(what & _ & [?|[?|(? & manifest' & ? & ? & _ & ?)]])
       | [(id0 & ? & v & _ & _ & _ & _ & ->)
       | (id0 & ? & ? & name & nm & _ & _ & _ & _ & ->)]];
    try congruence; apply IH.
Qed.

(** [Object.keys(this.validators)] *)
Lemma elem_of_keys {V} (m : gmap string V) id :
  id ∈ (map_to_list m).*1 ↔ is_Some (m !! id).
Proof.
  rewrite list_elem_of_fmap. split.
  - intros ([id' v] & -> & Hin%elem_of_map_to_list). by exists v.
  - intros [v Hv]. exists (id, v). split; [done | by apply elem_of_map_to_list].
Qed.

(** [getUNL] on a list that is newer: the version is stored, the loop
    over the entries runs, and if it returns the leftover
    [validatorsToDelete] are deleted. *)
Lemma getUNL_newer blob validatorList n :
  parseValidatorList blob = Some validatorList →
  lastValidatorListSequence n < ValidatorList.sequence validatorList →
  handle (request_settles (Some blob)) n
  = match getUNL_validators
            (bool_decide (length (map_to_list (validators n)).*1 = 0%nat))
            (map_to_list (validators n)).*1
            (ValidatorList.validators validatorList)
            (set_lastValidatorListSequence (ValidatorList.sequence validatorList) n)
    with
    | (Returned td, n1) =>
        (Returned tt, set_validators (λ m, foldl (λ m k, delete k m) m td) n1)
    | (Thrown what, n1) => (Thrown what, n1)
    end.
Proof.
  intros Hp Hlt. simpl. rewrite getUNL_then_cases, Hp.
  destruct (Z.leb_spec (ValidatorList.sequence validatorList)
                       (lastValidatorListSequence n)); [lia|].
  unfold bind. destruct (getUNL_validators _ _ _ _) as [[td|what] n1]; [|done].
  apply delete_validators_result.
Qed.

(** *** Claims about single handlers *)

(** C6. The stored version of the validator list never goes down,
    whatever inputs arrive; and a fetched list whose [sequence] is not
    above the stored one returns without writing any field and without
    calling [onUnlData]. *)
Theorem C6_roster_version_monotone_and_stale_noop (n : Network) :
  (∀ l, lastValidatorListSequence n ≤ lastValidatorListSequence (run n l))
  ∧ (∀ blob validatorList,
       parseValidatorList blob = Some validatorList →
       ValidatorList.sequence validatorList ≤ lastValidatorListSequence n →
       handle (request_settles (Some blob)) n = (Returned tt, n)).
Proof.
  split.
  - intros l. apply version_le_run.
  - intros blob validatorList Hp Hle. simpl. rewrite getUNL_then_cases, Hp.
    destruct (Z.leb_spec (ValidatorList.sequence validatorList)
                         (lastValidatorListSequence n)); [done | lia].
Qed.

(** C8. A manifest message for a master key that is not in
    [validators] changes nothing, whatever its [seq]: the handler
    returns the state it was given, and so does the whole step of a
    stream that delivers the message. *)
Theorem C8_stream_manifest_never_creates (n : Network) (m : ManifestMessage.t) :
  validators n !! ManifestMessage.master_key m = None →
  Network_onManifestReceived m n = (Returned tt, n)
  ∧ ∀ stream now, step n (ws_emits stream (ws_message (manifestReceived m) now)) = n.
Proof.
  intros Hv.
  assert (Network_onManifestReceived m n = (Returned tt, n)) as Hm.
  { destruct (Network_onManifestReceived_outcome m n) as [[_ ?]|(v & ? & ? & ? & _)];
      [done | congruence]. }
  split; [done|]. intros stream now. unfold step.
  destruct (objects n !! stream) as [s|] eqn:Hs.
  - rewrite (handle_ws_message _ _ s) by done. simpl. unfold bind. by rewrite Hm.
  - by rewrite handle_ws_no_stream.
Qed.

(** C3 (amended). A vote delivered by a stream gets the receive time as
    its [timestamp] and is passed once to [onValidationReceived] with
    every other field, the signing key included, as received; nothing
    else changes, and [manifestKeys] plays no part. *)
Theorem C3_vote_forwarded_with_timestamp
    (n : Network) (stream : nat) (s : ValidationStream.t)
    (m : ValidationMessage.t) (now : Z) :
  objects n !! stream = Some s →
  handle (ws_emits stream (ws_message (validationReceived m) now)) n
  = (Returned tt, add_call (OnValidationReceived (ValidationMessage.set_timestamp now m)) n)
  ∧ ValidationMessage.validation_public_key (ValidationMessage.set_timestamp now m)
    = ValidationMessage.validation_public_key m
  ∧ ValidationMessage.timestamp (ValidationMessage.set_timestamp now m) = Some now.
Proof.
  intros Hs. rewrite (handle_ws_message _ _ s) by done. done.
Qed.

(** C10. Delivering a vote leaves [validators], [manifestKeys], [names]
    and [lastValidatorListSequence] as they were; so does every input
    other than a settled validator-list request and a manifest
    message. *)
Theorem C10_votes_do_not_write_registry (n : Network) :
  (∀ stream m now,
     same_registry n (step n (ws_emits stream (ws_message (validationReceived m) now))))
  ∧ (∀ i, writes_registry i = false → same_registry n (step n i)).
Proof.
  assert (∀ i, writes_registry i = false → same_registry n (step n i)) as H.
  { intros i Hi. by apply same_registry_handle. }
  split; [|done]. intros stream m now. by apply H.
Qed.
(** C7. While a validator is tracked its stored [Sequence] never goes
    down, whichever input arrives, over one step and over any run that
    keeps it tracked; a manifest message, and an entry of the validator
    list, whose sequence is not above the stored one leave the whole
    state as it was, so no field is written and no callback called. *)
Theorem C7_manifest_sequence_monotone (n : Network) (id : string) (v : Validator.t) :
  validators n !! id = Some v →
  (∀ i v', validators (step n i) !! id = Some v' →
           Validator.Sequence v ≤ Validator.Sequence v')
  ∧ (∀ l v',
       (∀ l1, l1 `prefix_of` l → is_Some (validators (run n l1) !! id)) →
       validators (run n l) !! id = Some v' →
       Validator.Sequence v ≤ Validator.Sequence v')
  ∧ (∀ m,
       ManifestMessage.master_key m = id →
       ManifestMessage.seq m ≤ Validator.Sequence v →
       Network_onManifestReceived m n = (Returned tt, n))
  ∧ (∀ isDuringStartup validatorsToDelete validator manifest,
       hexToBase58 (ValidatorList.validation_public_key validator) = Some id →
       decodeManifest (ValidatorList.manifest validator) = Some manifest →
       Manifest.Sequence manifest ≤ Validator.Sequence v →
       getUNL_validator isDuringStartup validatorsToDelete validator n
       = (Returned (remove validatorsToDelete id), n)).
Proof.
  intros Hv. repeat split.
  - intros i v'. by apply sequence_not_lowered_step.
  - intros l v'. by apply sequence_not_lowered_run.
  - intros m <- Hle.
    destruct (Network_onManifestReceived_outcome m n)
      as [[_ ?] | (v0 & name & nm & Hv0 & Hlt & _)]; [done|].
    assert (v0 = v) as -> by congruence. lia.
  - intros b td validator manifest Hid Hm Hle.
    destruct (getUNL_validator_outcome b td validator n)
      as [(what & _ & [?|[?|(id' & manifest' & ? & ? & Hlt & _)]])
         | [(id' & manifest' & v' & ? & ? & ? & ? & Hr)
         | (id' & manifest' & signing_key & name & nm & ? & ? & ? & Hlt & _)]];
      try congruence.
    + assert (id' = id) as -> by congruence.
      assert (manifest' = manifest) as -> by congruence.
      specialize (Hlt v Hv). lia.
    + assert (id' = id) as -> by congruence.
      assert (manifest' = manifest) as -> by congruence.
      specialize (Hlt v Hv). lia.
Qed.

(** C9 (amended). Every call a settled validator-list request makes is
    a call of [onUnlData], and its [isDuringStartup] is true exactly
    when [validators] was empty when the request settled: true for a
    list applied to an empty registry, false for a list applied to a
    registry that tracks some validator. *)
Theorem C9_startup_flag_iff_registry_empty (n : Network) (settled : option string) :
  ∃ new,
    calls (step n (request_settles settled)) = calls n ++ new
    ∧ Forall (λ c, ∃ data, c = OnUnlData data
                           ∧ (UnlData.isDuringStartup data = true ↔ validators n = ∅)) new.
Proof.
  assert (∀ b n', only_onUnlData_with_flag b n n' →
                  (b = true ↔ validators n = ∅) →
                  ∃ new, calls n' = calls n ++ new
                    ∧ Forall (λ c, ∃ data, c = OnUnlData data
                        ∧ (UnlData.isDuringStartup data = true ↔ validators n = ∅)) new) as H.
  { intros b n' (new & ? & Hnew) Hb. exists new. split; [done|].
    eapply Forall_impl; [exact Hnew|]. intros c (data & -> & Hd). exists data.
    by rewrite Hd. }
  unfold step; destruct settled as [blob|]; simpl.
  2: { exists []. by rewrite app_nil_r. }
  rewrite getUNL_then_cases.
  destruct (parseValidatorList blob) as [validatorList|]; simpl.
  2: { exists []. by rewrite app_nil_r. }
  destruct (_ <=? _); simpl.
  { exists []. by rewrite app_nil_r. }
  eapply H; [|apply startup_flag_empty].
  transitivity (set_lastValidatorListSequence (ValidatorList.sequence validatorList) n);
    [by apply only_onUnlData_same_calls|].
  apply (keeps_bind (only_onUnlData_with_flag _));
    [apply only_onUnlData_getUNL_validators | intros td].
  intros n1. rewrite delete_validators_result. by apply only_onUnlData_same_calls.
Qed.
(** X28. A validator list that is newer than the stored one and whose
    entries all decode is applied to the end; and whenever [getUNL]
    returns, the tracked identities the list does not name are gone
    from [validators] and every identity it names is tracked, one
    tracked before with a sequence no lower than before, so a stale
    entry keeps its validator. *)
Theorem X28_roster_removes_absent_identities
    (n : Network) (blob : string) (validatorList : ValidatorList.t) :
  parseValidatorList blob = Some validatorList →
  lastValidatorListSequence n < ValidatorList.sequence validatorList →
  (Forall decodes (ValidatorList.validators validatorList) →
   ∃ n', handle (request_settles (Some blob)) n = (Returned tt, n'))
  ∧ ∀ n', handle (request_settles (Some blob)) n = (Returned tt, n') →
      (∀ id, is_Some (validators n !! id) →
             id ∉ identities (ValidatorList.validators validatorList) →
             validators n' !! id = None)
      ∧ (∀ id, id ∈ identities (ValidatorList.validators validatorList) →
               is_Some (validators n' !! id))
      ∧ (∀ id v, validators n !! id = Some v →
                 id ∈ identities (ValidatorList.validators validatorList) →
                 ∃ v', validators n' !! id = Some v'
                       ∧ Validator.Sequence v ≤ Validator.Sequence v').
Proof.
  intros Hp Hlt. rewrite (getUNL_newer _ _ _ Hp Hlt).
  set (b := bool_decide _). set (td0 := (map_to_list (validators n)).*1).
  set (n0 := set_lastValidatorListSequence _ n).
  set (l := ValidatorList.validators validatorList).
  split.
  - intros Hl. destruct (getUNL_validators_returns b l Hl td0 n0) as (td & n1 & ->).
    by eexists.
  - intros n'.
    pose proof (sequence_kept_getUNL_validators) as Hkept.
    destruct (getUNL_validators b td0 l n0) as [[td|what] n1] eqn:Hloop; [|done].
    intros [= <-].
    destruct (getUNL_validators_returned b l td0 n0 td n1)
      as (_ & Htd & Hval & _); [apply NoDup_fst_map_to_list | done |].
    assert (∀ id, id ∈ td ↔ is_Some (validators n !! id) ∧ id ∉ identities l) as Htd'.
    { intros id. rewrite Htd. unfold td0. by rewrite elem_of_keys. }
    simpl. repeat split.
    + intros id Hid Hout. rewrite lookup_foldl_delete.
      rewrite decide_True; [done|]. by apply Htd'.
    + intros id Hin. rewrite lookup_foldl_delete.
      rewrite decide_False by (rewrite Htd'; tauto).
      apply Hval. by right.
    + intros id v Hv Hin. rewrite lookup_foldl_delete.
      rewrite decide_False by (rewrite Htd'; tauto).
      specialize (Hkept id b l td0 n0 v Hv). by rewrite Hloop in Hkept.
Qed.

(** C4 (amended). A failed request and a blob that does not parse leave
    the state exactly as it was.  When the turn of the loop for one
    entry throws, [getUNL] throws with the state the entries before it
    left: the new version is stored, those entries stay applied, the
    entries after it are not looked at and no validator is deleted. *)
Theorem C4_failure_keeps_what_was_applied (n : Network) :
  handle (request_settles None) n = (Thrown "RequestError", n)
  ∧ (∀ blob, parseValidatorList blob = None →
             handle (request_settles (Some blob)) n = (Thrown "JSON.parse", n))
  ∧ (∀ blob validatorList before failing after validatorsToDelete n1 what,
       parseValidatorList blob = Some validatorList →
       lastValidatorListSequence n < ValidatorList.sequence validatorList →
       ValidatorList.validators validatorList = before ++ failing :: after →
       getUNL_validators
         (bool_decide (length (map_to_list (validators n)).*1 = 0%nat))
         (map_to_list (validators n)).*1 before
         (set_lastValidatorListSequence (ValidatorList.sequence validatorList) n)
       = (Returned validatorsToDelete, n1) →
       (getUNL_validator
          (bool_decide (length (map_to_list (validators n)).*1 = 0%nat))
          validatorsToDelete failing n1).1 = Thrown what →
       handle (request_settles (Some blob)) n = (Thrown what, n1)
       ∧ lastValidatorListSequence n1 = ValidatorList.sequence validatorList
       ∧ ∀ id, is_Some (validators n !! id) → is_Some (validators n1 !! id)).
Proof.
  split; [done|]. split.
  - intros blob Hp. simpl. by rewrite getUNL_then_cases, Hp.
  - intros blob validatorList before failing after td n1 what Hp Hlt Hl Hbefore Hthrow.
    rewrite (getUNL_newer _ _ _ Hp Hlt), Hl, getUNL_validators_app.
    unfold bind at 1. rewrite Hbefore. cbn [getUNL_validators].
    unfold mbind, Task_bind, bind.
    destruct (getUNL_validators_returned _ _ _ _ _ _ (NoDup_fst_map_to_list _) Hbefore)
      as (_ & _ & Hval & _ & Hlast).
    split; [|split; [exact Hlast | intros id ?; apply Hval; by left]].
    destruct (getUNL_validator_outcome
                (bool_decide (length (map_to_list (validators n)).*1 = 0%nat))
                td failing n1)
      as [(what' & Hr & _) | [(? & ? & ? & _ & _ & _ & _ & Hr)
         | (? & ? & ? & ? & ? & _ & _ & _ & _ & Hr)]];
      rewrite Hr in Hthrow |- *; simpl in Hthrow; by simplify_eq.
Qed.
End properties.

(** * Further properties of the code *)

(** ** [indexOf] and [remove] *)

(** X1. [indexOf] is [-1] exactly when the element is not in the
    array; otherwise it is the position of the first occurrence. *)
Theorem X1_indexOf_first_occurrence (array : list string) (element : string) :
  (element ∉ array → indexOf array element = -1)
  ∧ (element ∈ array →
     ∃ i : nat, indexOf array element = Z.of_nat i
       ∧ array !! i = Some element
       ∧ ∀ j : nat, (j < i)%nat → array !! j ≠ Some element).
Proof.
  induction array as [|x array [IHout IHin]]; simpl.
  - split; [done | by intros ?%elem_of_nil].
  - destruct (decide (x = element)) as [->|Hne]; split.
    + intros []. by left.
    + intros _. exists 0%nat. split; [done|]. split; [done|]. intros j ?. lia.
    + intros Hout. rewrite IHout; [done|]. intros ?. apply Hout. by right.
    + intros [?|Hin]%elem_of_cons; [done|].
      destruct (IHin Hin) as (i & Hi & Hat & Hfirst). rewrite Hi.
      rewrite decide_False by lia. exists (S i). split; [lia|]. split; [done|].
      intros [|j] ?; simpl; [by intros [= ?] | apply Hfirst; lia].
Qed.

(** X2. Removing an element that is not in the array leaves the array
    as it is. *)
Theorem X2_remove_absent (array : list string) (element : string) :
  element ∉ array → remove array element = array.
Proof.
  induction array as [|x array IH]; intros Hout; [done|].
  rewrite remove_cons, decide_False by (intros ->; apply Hout; by left).
  rewrite IH; [done|]. intros ?. apply Hout. by right.
Qed.

(** X3. Removing an element takes out its first occurrence and nothing
    else: the elements before and after it stay, later occurrences
    included, and the array is one shorter. *)
Theorem X3_remove_first_occurrence (before after : list string) (element : string) :
  element ∉ before →
  remove (before ++ element :: after) element = before ++ after
  ∧ length (remove (before ++ element :: after) element)
    = (length (before ++ element :: after) - 1)%nat.
Proof.
  intros Hout.
  assert (remove (before ++ element :: after) element = before ++ after) as Hr.
  { induction before as [|x before IH]; simpl.
    - by rewrite remove_cons, decide_True.
    - rewrite remove_cons, decide_False by (intros ->; apply Hout; by left).
      rewrite IH; [done|]. intros ?. apply Hout. by right. }
  split; [done|]. rewrite Hr, !length_app. simpl. lia.
Qed.

(** ** Relations kept by every input *)

Section keeps_handle.
Context {ext : Externals}.
Context (R : relation Network) `{!PreOrder R}.
Hypothesis R_objects : ∀ f n, R n (set_objects f n).
Hypothesis R_validationStreams : ∀ f n, R n (set_validationStreams f n).
Hypothesis R_vote : ∀ m n, R n (add_call (OnValidationReceived m) n).
Hypothesis R_close : ∀ a c n, R n (add_call (OnClose a c) n).
Hypothesis R_manifest : ∀ m, keeps R (Network_onManifestReceived m).
Hypothesis R_getUNL : ∀ settled, keeps R (getUNL settled).

Lemma keeps_callbacks_onClose address cause :
  keeps R (onClose (stream_callbacks address) cause).
Proof.
  simpl. unfold mbind, Task_bind.
  apply keeps_bind; [tc_solve | by apply keeps_modify | intros _].
  unfold onCloseAddress. keeps_go. by apply keeps_modify.
Qed.

Lemma keeps_handle_other i :
  (∀ settled, i ≠ request_settles settled) → keeps R (handle i).
Proof.
  destruct i; simpl; intros Hi.
  - by destruct (Hi settled).
  - unfold resolve4_callback. keeps_go; by apply keeps_modify.
  - keeps_go. apply keeps_emit; try tc_solve; try done; intros.
    apply keeps_callbacks_onClose.
  - keeps_go. apply keeps_pingTimeout_expires; try tc_solve; try done; intros.
    apply keeps_callbacks_onClose.
Qed.

Lemma keeps_handle i : keeps R (handle i).
Proof.
  destruct (decide (is_Some (match i with request_settles s => Some s | _ => None end)))
    as [[settled Hi]|Hi].
  - destruct i; try done. apply R_getUNL.
  - apply keeps_handle_other. intros settled ->. apply Hi. by eexists.
Qed.

Lemma keeps_run l : ∀ n, R n (run n l).
Proof.
  induction l as [|i l IH]; intros n; simpl; [done|].
  etransitivity; [apply (keeps_handle i n) | apply IH].
Qed.
End keeps_handle.

(** [getUNL] keeps what its pieces keep. *)
Lemma keeps_getUNL_loop `{Externals} R `{!PreOrder R} b l :
  (∀ td validator, keeps R (getUNL_validator b td validator)) →
  ∀ td, keeps R (getUNL_validators b td l).
Proof.
  intros Hturn. induction l as [|validator l IH]; intros td; simpl; keeps_go; auto.
Qed.

Lemma keeps_getUNL `{Externals} R `{!PreOrder R} settled :
  (∀ z n, R n (set_lastValidatorListSequence z n)) →
  (∀ b td validator, keeps R (getUNL_validator b td validator)) →
  (∀ k n, R n (set_validators (delete k) n)) →
  keeps R (getUNL settled).
Proof.
  intros Hlast Hturn Hdel n. destruct settled as [blob|]; simpl; [|done].
  rewrite getUNL_then_cases.
  destruct (parseValidatorList blob) as [validatorList|]; simpl; [|done].
  destruct (_ <=? _); simpl; [done|].
  etransitivity; [apply Hlast|].
  apply (keeps_bind R).
  - by apply keeps_getUNL_loop.
  - intros td. apply keeps_for_of; [tc_solve|]. intros k. by apply keeps_modify.
Qed.

(** ** Streams: what an event can do to the stream objects *)

(** The listeners of a stream write the stream object in five ways;
    a relation kept by those writes and by the callbacks is kept by the
    listeners.  Arming the timer is only needed for a stream with
    [useHeartbeat]. *)
Section keeps_stream_writes.
Context (R : relation Network) `{!PreOrder R}.
Context (cb : ValidationStreamCallbacks) (this : nat).
Hypothesis R_readyState :
  ∀ r n, R n (set_objects (alter (ValidationStream.set_ws_readyState r) this) n).
Hypothesis R_clear :
  ∀ n, R n (set_objects (alter (ValidationStream.set_pingTimeout None) this) n).
Hypothesis R_send :
  ∀ r n, R n (set_objects (alter (ValidationStream.ws_send r) this) n).
Hypothesis R_terminate :
  ∀ n, R n (set_objects
              (alter (λ s, if ValidationStream.ws_readyState s =? 3 then s
                           else ValidationStream.set_ws_readyState 2 s) this) n).
Hypothesis cb_vote : ∀ m, keeps R (onValidationReceived cb m).
Hypothesis cb_manifest : ∀ m, keeps R (onManifestReceived cb m).
Hypothesis cb_close : ∀ c, keeps R (onClose cb c).

Lemma writes_message dataObj now : keeps R (message cb this dataObj now).
Proof.
  destruct dataObj; simpl; keeps_go; auto;
    unfold ws_terminate, update_this; by apply keeps_modify.
Qed.

Lemma writes_listeners s e :
  (ValidationStream.useHeartbeat s = true →
   ∀ n, R n (set_objects
               (alter (ValidationStream.set_pingTimeout
                         (Some (ValidationStream.serverPingInterval s
                                + ValidationStream.latency s))) this) n)) →
  Forall (keeps R) (listeners cb this s e).
Proof.
  intros Harm.
  destruct e; simpl; destruct (ValidationStream.useHeartbeat s); simpl;
    repeat constructor;
    unfold subscribe, heartbeat, heartbeat_close, plain_close, update_this;
    keeps_go; auto using writes_message; apply keeps_modify; auto.
Qed.

Lemma writes_emit_body s e :
  (ValidationStream.useHeartbeat s = true →
   ∀ n, R n (set_objects
               (alter (ValidationStream.set_pingTimeout
                         (Some (ValidationStream.serverPingInterval s
                                + ValidationStream.latency s))) this) n)) →
  keeps R (bind (ws_transition this e) (λ _, for_of (listeners cb this s e) (λ l, l))).
Proof.
  intros Harm. apply keeps_bind; [tc_solve | | intros _].
  - destruct e; simpl; keeps_go; unfold update_this; by apply keeps_modify.
  - pose proof (writes_listeners s e Harm) as H.
    induction H as [|l ls Hl _ IH]; simpl; [keeps_go|].
    apply keeps_bind; [tc_solve | exact Hl | intros _; exact IH].
Qed.

Lemma writes_pingTimeout_expires : keeps R (pingTimeout_expires cb this).
Proof.
  unfold pingTimeout_expires, pingTimeout_callback, ws_terminate, update_this.
  keeps_go; auto; by apply keeps_modify.
Qed.
End keeps_stream_writes.

Section further.
Context {ext : Externals}.

(** An event of a stream that exists runs the listeners of the event
    with the callbacks of [subscribeToRippleds]. *)
Lemma handle_ws_emits n stream s e :
  objects n !! stream = Some s →
  handle (ws_emits stream e) n
  = bind (ws_transition stream e)
         (λ _, for_of (listeners (stream_callbacks (ValidationStream.address s))
                                 stream s e) (λ l, l)) n.
Proof.
  intros Hs. unfold handle, callbacks_of, emit, mbind, Task_bind.
  unfold bind at 1, get; simpl. unfold bind at 1, get; simpl.
  rewrite Hs; simpl. done.
Qed.

Lemma handle_pingTimeout n stream :
  handle (pingTimeout_runs_out stream) n
  = pingTimeout_expires
      (stream_callbacks (default "" (ValidationStream.address <$> objects n !! stream)))
      stream n.
Proof. done. Qed.

(** With [validationStreams] [undefined] no address is connected. *)
Lemma connected_undefined ips n :
  validationStreams n = None →
  foldl (λ n ip, connected (address_of ip) n) n ips = n.
Proof.
  intros Hn. induction ips as [|ip ips IH]; simpl; [done|].
  unfold connected at 2. by rewrite Hn.
Qed.

(** The callback of [dns.resolve4], address by address: it throws at
    the first address when [validationStreams] is [undefined]. *)
Lemma resolve4_callback_connected ips : ∀ n,
  resolve4_callback (Some ips) n
  = (match validationStreams n, ips with
     | None, _ :: _ => Thrown "TypeError"
     | _, _ => Returned tt
     end,
     foldl (λ n ip, connected (address_of ip) n) n ips).
Proof.
  induction ips as [|ip ips IH]; intros n; simpl; [by destruct (validationStreams n)|].
  unfold resolve4_callback in IH. unfold mbind, Task_bind.
  unfold bind at 1. unfold bind at 1, get; simpl.
  fold (address_of ip). unfold connected at 2.
  destruct (validationStreams n) as [streams|] eqn:Hn; simpl.
  - destruct (streams !! address_of ip); simpl; rewrite IH; simpl; by rewrite Hn.
  - unfold throw. f_equal. symmetry. by apply connected_undefined.
Qed.

(** A relation on the stream bookkeeping that every write of the
    listeners, every new connection and every removal keeps is kept by
    every input. *)
Section keeps_streams.
Context (R : relation Network) `{!PreOrder R}.
Hypothesis R_readyState :
  ∀ this r n, R n (set_objects (alter (ValidationStream.set_ws_readyState r) this) n).
Hypothesis R_clear :
  ∀ this n, R n (set_objects (alter (ValidationStream.set_pingTimeout None) this) n).
Hypothesis R_send :
  ∀ this r n, R n (set_objects (alter (ValidationStream.ws_send r) this) n).
Hypothesis R_terminate :
  ∀ this n, R n (set_objects
              (alter (λ s, if ValidationStream.ws_readyState s =? 3 then s
                           else ValidationStream.set_ws_readyState 2 s) this) n).
Hypothesis R_connected : ∀ address n, R n (connected address n).
Hypothesis R_removed : ∀ address n, R n (set_validationStreams (delete address) n).
Hypothesis R_validators : ∀ f n, R n (set_validators f n).
Hypothesis R_names : ∀ f n, R n (set_names f n).
Hypothesis R_manifestKeys : ∀ f n, R n (set_manifestKeys f n).
Hypothesis R_calls : ∀ c n, R n (add_call c n).
Hypothesis R_version : ∀ z n, R n (set_lastValidatorListSequence z n).

Lemma streams_onClose address cause :
  keeps R (onClose (stream_callbacks address) cause).
Proof.
  simpl. unfold mbind, Task_bind.
  apply keeps_bind; [tc_solve | by apply keeps_modify | intros _].
  unfold onCloseAddress. keeps_go. by apply keeps_modify.
Qed.

Lemma streams_step n i :
  (∀ this s, objects n !! this = Some s →
     ValidationStream.useHeartbeat s = true →
     ∀ n1, R n1 (set_objects
                   (alter (ValidationStream.set_pingTimeout
                             (Some (ValidationStream.serverPingInterval s
                                    + ValidationStream.latency s))) this) n1)) →
  R n (step n i).
Proof.
  intros Harm. unfold step. destruct i as [settled|r|stream e|stream].
  - apply (keeps_getUNL R settled); try done. intros. by apply keeps_getUNL_validator.
  - destruct r as [ips|]; [|done].
    change (handle (resolve4_calls_back (Some ips)) n)
      with (resolve4_callback (Some ips) n).
    rewrite resolve4_callback_connected; simpl.
    clear Harm. revert n. induction ips as [|ip ips IH]; intros n; simpl; [done|].
    etransitivity; [apply R_connected | apply IH].
  - destruct (objects n !! stream) as [s|] eqn:Hs;
      [|by rewrite handle_ws_no_stream].
    rewrite (handle_ws_emits _ _ s) by done.
    apply writes_emit_body; try done; intros.
    + simpl. by apply keeps_modify.
    + by apply keeps_Network_onManifestReceived.
    + apply streams_onClose.
    + by eapply Harm.
  - rewrite handle_pingTimeout.
    apply writes_pingTimeout_expires; try done; intros. apply streams_onClose.
Qed.
End keeps_streams.

(** [fetchName]: a truthy cached name is returned as it is; otherwise
    the answer of the Data API is cached if it is truthy, and the
    identity is returned if it is not. *)
Lemma fetchName_cases id n :
  (∃ name, names n !! id = Some name ∧ truthy name = true
           ∧ fetchName id n = (Returned name, n))
  ∨ ((∀ name, names n !! id = Some name → truthy name = false)
     ∧ ((∃ domain, validatorDomain id = Some domain ∧ truthy domain = true
                   ∧ fetchName id n
                     = (Returned domain, set_names (<[id := domain]>) n))
        ∨ ((∀ domain, validatorDomain id = Some domain → truthy domain = false)
           ∧ fetchName id n = (Returned id, n)))).
Proof.
  unfold fetchName, fetchName_request, fetchName_settled, cached_name. task_eval.
  destruct (names n !! id) as [name|] eqn:Hn; [destruct (truthy name) eqn:Ht|].
  - left. by exists name.
  - right. split; [by intros ? [= <-]|].
    destruct (validatorDomain id) as [domain|]; [destruct (truthy domain) eqn:Hd|].
    + left. by exists domain.
    + right. split; [by intros ? [= <-] | done].
    + right. done.
  - right. split; [done|].
    destruct (validatorDomain id) as [domain|]; [destruct (truthy domain) eqn:Hd|].
    + left. by exists domain.
    + right. split; [by intros ? [= <-] | done].
    + right. done.
Qed.

(** *** The stored version *)

#[local] Instance same_version_preorder : PreOrder same_version.
Proof. split; unfold same_version; [done | intros n1 n2 n3 -> ->; done]. Qed.

Lemma same_version_getUNL_validators b l td :
  keeps same_version (getUNL_validators b td l).
Proof. apply keeps_getUNL_validators; try tc_solve; done. Qed.

Lemma version_after_getUNL blob validatorList n :
  parseValidatorList blob = Some validatorList →
  lastValidatorListSequence (step n (request_settles (Some blob)))
  = Z.max (lastValidatorListSequence n) (ValidatorList.sequence validatorList).
Proof.
  intros Hp. unfold step; simpl. rewrite getUNL_then_cases, Hp.
  destruct (Z.leb_spec (ValidatorList.sequence validatorList)
                       (lastValidatorListSequence n)); simpl; [lia|].
  unfold bind.
  match goal with |- context [getUNL_validators ?b ?td ?l ?n1] =>
    pose proof (same_version_getUNL_validators b l td n1) as Hv;
    destruct (getUNL_validators b td l n1) as [[td'|what] n2] end;
    unfold same_version in Hv; simpl in Hv |- *.
  - rewrite delete_validators_result; simpl. rewrite Hv. lia.
  - rewrite Hv. lia.
Qed.

(** X4. Once a validator list has been parsed, the stored version is
    the larger of the stored one and the list's, whether the entries
    were then applied, skipped or cut short by a throw. *)
Theorem X4_stored_version_is_max (n : Network) (blob : string)
    (validatorList : ValidatorList.t) :
  parseValidatorList blob = Some validatorList →
  lastValidatorListSequence (step n (request_settles (Some blob)))
  = Z.max (lastValidatorListSequence n) (ValidatorList.sequence validatorList).
Proof. apply version_after_getUNL. Qed.

(** X5. Delivering the same response of the validator-list request a
    second time changes nothing: the second delivery finds the version
    already stored, or fails like the first before writing. *)
Theorem X5_same_response_twice (n : Network) (settled : option string) :
  step (step n (request_settles settled)) (request_settles settled)
  = step n (request_settles settled).
Proof.
  destruct settled as [blob|]; [|done].
  destruct (parseValidatorList blob) as [validatorList|] eqn:Hp.
  - pose proof (version_after_getUNL blob validatorList n Hp) as Hv.
    set (n1 := step n (request_settles (Some blob))) in *.
    unfold step at 1; simpl. rewrite getUNL_then_cases, Hp.
    destruct (Z.leb_spec (ValidatorList.sequence validatorList)
                         (lastValidatorListSequence n1)); [done | lia].
  - assert (step n (request_settles (Some blob)) = n) as Hn
      by (unfold step; simpl; by rewrite getUNL_then_cases, Hp).
    by rewrite !Hn.
Qed.

(** *** Manifests of the stream *)


(** *** The tracked identities *)

#[local] Instance same_tracked_preorder : PreOrder same_tracked.
Proof.
  split; unfold same_tracked; [done|].
  intros n1 n2 n3 H12 H23 id. by rewrite H23, H12.
Qed.

Lemma same_tracked_same_validators n n' :
  validators n' = validators n → same_tracked n n'.
Proof. intros Heq id. by rewrite Heq. Qed.

Lemma same_tracked_Network_onManifestReceived m :
  keeps same_tracked (Network_onManifestReceived m).
Proof.
  intros n.
  destruct (Network_onManifestReceived_outcome m n)
    as [[_ ->] | (v & name & nm & Hv & _ & ->)]; [done|].
  unfold manifest_applied; intros id; simpl.
  rewrite lookup_insert_is_Some.
  destruct (decide (ManifestMessage.master_key m = id)) as [<-|]; [|tauto].
  rewrite Hv. split; [by eexists | by left].
Qed.

(** X7. Nothing but a settled validator-list request adds or removes a
    tracked identity: after any other input, a manifest message
    included, exactly the same identities are tracked. *)
Theorem X7_only_the_validator_list_changes_membership (n : Network) (i : Input) :
  (∀ settled, i ≠ request_settles settled) →
  ∀ id, is_Some (validators (step n i) !! id) ↔ is_Some (validators n !! id).
Proof.
  intros Hi. apply (keeps_handle_other same_tracked); try done;
    try (intros; by apply same_tracked_same_validators).
  apply same_tracked_Network_onManifestReceived.
Qed.
(** *** The names *)

(** Handlers that reach [names] only through [fetchName]. *)
Section keeps_fetchName.
Context (R : relation Network) `{!PreOrder R}.
Hypothesis R_fetchName : ∀ id, keeps R (fetchName id).
Hypothesis R_validators : ∀ f n, R n (set_validators f n).
Hypothesis R_manifestKeys : ∀ f n, R n (set_manifestKeys f n).
Hypothesis R_calls : ∀ c n, R n (add_call c n).
Hypothesis R_objects : ∀ f n, R n (set_objects f n).
Hypothesis R_validationStreams : ∀ f n, R n (set_validationStreams f n).
Hypothesis R_version : ∀ z n, R n (set_lastValidatorListSequence z n).

Lemma keeps_fn_getUNL_validator b td validator :
  keeps R (getUNL_validator b td validator).
Proof. unfold getUNL_validator. keeps_go; auto; by apply keeps_modify. Qed.

Lemma keeps_fn_Network_onManifestReceived m : keeps R (Network_onManifestReceived m).
Proof. unfold Network_onManifestReceived. keeps_go; auto; by apply keeps_modify. Qed.

Lemma keeps_fn_run l n : R n (run n l).
Proof.
  apply keeps_run; try done.
  - apply keeps_fn_Network_onManifestReceived.
  - intros settled. apply keeps_getUNL; try done.
    apply keeps_fn_getUNL_validator.
Qed.
End keeps_fetchName.

#[local] Instance names_kept_preorder : PreOrder names_kept.
Proof.
  split; unfold names_kept; [by intros n id name ??|].
  intros n1 n2 n3 H12 H23 id name ??. apply H23; [|done]. by apply H12.
Qed.

Lemma names_kept_same_names n n' : names n' = names n → names_kept n n'.
Proof. intros Heq id name ??. by rewrite Heq. Qed.

Lemma names_kept_fetchName id : keeps names_kept (fetchName id).
Proof.
  intros n.
  destruct (fetchName_cases id n)
    as [(name & _ & _ & ->) | [Hfalsy [(domain & _ & _ & ->) | [_ ->]]]];
    simpl; try done.
  intros id' name' Hn' Ht'; simpl. destruct (decide (id = id')) as [->|].
  - rewrite (Hfalsy _ Hn') in Ht'. done.
  - by rewrite lookup_insert_ne.
Qed.

Lemma names_kept_run n l : names_kept n (run n l).
Proof.
  apply keeps_fn_run; try tc_solve; try apply names_kept_fetchName;
    intros; by apply names_kept_same_names.
Qed.

Lemma cached_name_Some n id name :
  names n !! id = Some name → truthy name = true → cached_name n id = Some name.
Proof. intros Hn Ht. unfold cached_name. by rewrite Hn, Ht. Qed.

Lemma names_fetchName_settled_ne id id' response n :
  id ≠ id' →
  names (fetchName_settled id' response n).2 !! id = names n !! id.
Proof.
  intros Hne. unfold fetchName_settled.
  destruct response as [domain|]; [destruct (truthy domain)|]; task_eval; simpl;
    try done.
  by rewrite lookup_insert_ne.
Qed.

Lemma elem_of_remove_1 array element x : x ∈ remove array element → x ∈ array.
Proof.
  induction array as [|y array IH]; [done|].
  rewrite remove_cons. destruct (decide (y = element)); [by right|].
  intros [->|?]%elem_of_cons; [by left | right; by apply IH].
Qed.

(** A cached name with no request in flight for its identity survives
    one event, and the event leaves no such request in flight. *)
Lemma event_step_keeps_name n in_flight id name e :
  names n !! id = Some name →
  truthy name = true →
  id ∉ in_flight →
  names (event_step (n, in_flight) e).1 !! id = Some name
  ∧ id ∉ (event_step (n, in_flight) e).2.
Proof.
  intros Hn Ht Hout. destruct e as [i|id'|id' response]; simpl.
  - split; [|done]. by apply (names_kept_run n [i]).
  - destruct (cached_name n id') eqn:Hc; simpl; [done|]. split; [done|].
    intros [->|?]%elem_of_cons; [|done].
    by rewrite (cached_name_Some _ _ _ Hn Ht) in Hc.
  - destruct (decide (id' ∈ in_flight)) as [Hin|]; simpl; [|done]. split.
    + rewrite names_fetchName_settled_ne; [done|]. by intros ->.
    + intros ?%elem_of_remove_1. done.
Qed.

(** X8. A truthy name in [names] stays there unchanged, whatever
    inputs are handled and whatever lookups start and settle, as long
    as no request for that identity was in flight when it was stored.
    A request in flight does overwrite it: when [fetchName] is called
    twice for an identity without a name before either request
    settles, the second answer replaces the name the first has
    stored. *)
Theorem X8_cached_name_kept_unless_request_in_flight :
  (∀ n in_flight id name l,
     names n !! id = Some name →
     truthy name = true →
     id ∉ in_flight →
     names (event_run (n, in_flight) l).1 !! id = Some name)
  ∧ (∀ n in_flight id first second,
       cached_name n id = None →
       truthy first = true →
       truthy second = true →
       let stored :=
         event_run (n, in_flight)
           [fetchName_called id; fetchName_called id;
            fetchName_request_settles id (Some first)] in
       names stored.1 !! id = Some first
       ∧ names (event_step stored (fetchName_request_settles id (Some second))).1 !! id
         = Some second).
Proof.
  split.
  - intros n in_flight id name l. revert n in_flight.
    induction l as [|e l IH]; intros n in_flight Hn Ht Hout; [done|].
    destruct (event_step_keeps_name n in_flight id name e Hn Ht Hout) as [Hn' Hout'].
    change (names (event_run (event_step (n, in_flight) e) l).1 !! id = Some name).
    destruct (event_step (n, in_flight) e) as [n' in_flight']. by apply IH.
  - intros n in_flight id first second Hc Ht1 Ht2 stored. subst stored.
    assert (event_run (n, in_flight)
              [fetchName_called id; fetchName_called id;
               fetchName_request_settles id (Some first)]
            = (set_names (<[id := first]>) n, id :: in_flight)) as ->.
    { unfold event_run; simpl. rewrite Hc; simpl. rewrite Hc; simpl.
      rewrite decide_True by (by left).
      unfold fetchName_settled. rewrite Ht1. task_eval; simpl.
      by rewrite remove_cons, decide_True. }
    simpl. split; [by rewrite lookup_insert_eq|].
    rewrite decide_True by (by left).
    unfold fetchName_settled. rewrite Ht2. task_eval; simpl.
    by rewrite lookup_insert_eq.
Qed.

#[local] Instance names_truthy_kept_preorder : PreOrder names_truthy_kept.
Proof.
  split; unfold names_truthy_kept; [by intros n ?|].
  intros n1 n2 n3 H12 H23 ?. by apply H23, H12.
Qed.

Lemma names_truthy_fetchName id : keeps names_truthy_kept (fetchName id).
Proof.
  intros n.
  destruct (fetchName_cases id n)
    as [(name & _ & _ & ->) | [Hfalsy [(domain & _ & Hd & ->) | [_ ->]]]];
    simpl; try done.
  intros Hall id' name'; simpl. destruct (decide (id = id')) as [->|].
  - rewrite lookup_insert_eq. by intros [= <-].
  - rewrite lookup_insert_ne by done. apply Hall.
Qed.

(** X9. [names] never comes to hold an empty name: if every cached
    name is truthy, so is every cached name after any inputs. *)
Theorem X9_names_stay_truthy (n : Network) (l : list Input) :
  names_truthy n → names_truthy (run n l).
Proof.
  apply (keeps_fn_run names_truthy_kept); try tc_solve;
    try apply names_truthy_fetchName; intros; by intros ?.
Qed.
(** *** The validator list and the registry *)

Lemma bind_returned {A B} (m : Task A) (k : A → Task B) n b n' :
  bind m k n = (Returned b, n') →
  ∃ a n1, m n = (Returned a, n1) ∧ k a n1 = (Returned b, n').
Proof.
  unfold bind. destruct (m n) as [[a|what] n1]; [|done]. intros Hk. by exists a, n1.
Qed.

(** A manifest message that is not newer than the stored manifest. *)
Lemma stale_manifest_message m n v :
  validators n !! ManifestMessage.master_key m = Some v →
  ManifestMessage.seq m ≤ Validator.Sequence v →
  Network_onManifestReceived m n = (Returned tt, n).
Proof.
  intros Hv Hle.
  destruct (Network_onManifestReceived_outcome m n)
    as [[_ ?] | (v0 & name & nm & Hv0 & Hlt & _)]; [done|].
  assert (v0 = v) as -> by congruence. lia.
Qed.

(** An entry of the validator list that is not newer than the stored
    manifest. *)
Lemma stale_entry b td validator n id manifest v :
  hexToBase58 (ValidatorList.validation_public_key validator) = Some id →
  decodeManifest (ValidatorList.manifest validator) = Some manifest →
  validators n !! id = Some v →
  Manifest.Sequence manifest ≤ Validator.Sequence v →
  getUNL_validator b td validator n = (Returned (remove td id), n).
Proof.
  intros Hid Hm Hv Hle.
  destruct (getUNL_validator_outcome b td validator n)
    as [(what & _ & [?|[?|(id' & manifest' & ? & ? & Hlt & _)]])
       | [(id' & manifest' & v' & ? & ? & ? & ? & Hr)
       | (id' & manifest' & signing_key & name & nm & ? & ? & ? & Hlt & _)]];
    try congruence.
  - assert (id' = id) as -> by congruence.
    assert (manifest' = manifest) as -> by congruence.
    specialize (Hlt v Hv). lia.
  - assert (id' = id) as -> by congruence.
    assert (manifest' = manifest) as -> by congruence.
    specialize (Hlt v Hv). lia.
Qed.

(** After the turn of an entry that returns, the identity is tracked
    with a sequence no lower than the entry's. *)
Lemma getUNL_validator_at_least b td validator n td' n' id manifest :
  hexToBase58 (ValidatorList.validation_public_key validator) = Some id →
  decodeManifest (ValidatorList.manifest validator) = Some manifest →
  getUNL_validator b td validator n = (Returned td', n') →
  ∃ v, validators n' !! id = Some v ∧ Manifest.Sequence manifest ≤ Validator.Sequence v.
Proof.
  intros Hid Hm.
  destruct (getUNL_validator_outcome b td validator n)
    as [(what & -> & _) | [(id' & manifest' & v & ? & ? & Hv & ? & ->)
       | (id' & manifest' & signing_key & name & nm & ? & ? & ? & _ & ->)]];
    [done| |]; intros [= <- <-];
    assert (id' = id) as -> by congruence;
    assert (manifest' = manifest) as -> by congruence.
  - by exists v.
  - unfold manifest_stored; simpl. rewrite lookup_insert_eq. eexists; split; [done|].
    simpl. lia.
Qed.

Lemma elem_of_identities validator l id :
  validator ∈ l →
  hexToBase58 (ValidatorList.validation_public_key validator) = Some id →
  id ∈ identities l.
Proof.
  intros Hin Hid. unfold identities. apply list_elem_of_omap. by exists validator.
Qed.

(** X10. When [getUNL] has applied a newer validator list to the end,
    every identity the list names is tracked with a sequence at least
    as high as that of each of its entries: the registry is never
    behind the list it has just applied. *)
Theorem X10_registry_not_behind_applied_list
    (n n' : Network) (blob : string) (validatorList : ValidatorList.t) :
  parseValidatorList blob = Some validatorList →
  lastValidatorListSequence n < ValidatorList.sequence validatorList →
  handle (request_settles (Some blob)) n = (Returned tt, n') →
  ∀ validator id manifest,
    validator ∈ ValidatorList.validators validatorList →
    hexToBase58 (ValidatorList.validation_public_key validator) = Some id →
    decodeManifest (ValidatorList.manifest validator) = Some manifest →
    ∃ v, validators n' !! id = Some v
         ∧ Manifest.Sequence manifest ≤ Validator.Sequence v.
Proof.
  intros Hp Hlt. rewrite (getUNL_newer _ _ _ Hp Hlt).
  set (b := bool_decide _). set (td0 := (map_to_list (validators n)).*1).
  set (n0 := set_lastValidatorListSequence _ n).
  destruct (getUNL_validators b td0 _ n0) as [[td|what] n1] eqn:Hloop; [|done].
  intros [= <-] validator id manifest Hin Hid Hm.
  destruct (getUNL_validators_returned b (ValidatorList.validators validatorList)
              td0 n0 td n1)
    as (_ & Htd & _); [apply NoDup_fst_map_to_list | done |].
  apply list_elem_of_split in Hin as (l1 & l2 & Hl). rewrite Hl in Hloop, Htd.
  rewrite getUNL_validators_app in Hloop.
  apply bind_returned in Hloop as (td1 & na & _ & Hloop).
  cbn [getUNL_validators] in Hloop. unfold mbind, Task_bind in Hloop.
  apply bind_returned in Hloop as (td2 & nb & Hturn & Hrest).
  destruct (getUNL_validator_at_least _ _ _ _ _ _ _ _ Hid Hm Hturn) as (v & Hv & Hle).
  pose proof (sequence_kept_getUNL_validators id b l2 td2 nb v Hv) as (v' & Hv' & Hle').
  rewrite Hrest in Hv'. simpl in Hv'.
  exists v'. split; [|lia]. simpl. rewrite lookup_foldl_delete.
  rewrite decide_False; [done|]. rewrite Htd. intros [_ Hout]. apply Hout.
  eapply elem_of_identities; [|done]. apply elem_of_app. right. by left.
Qed.

(** X11. Whichever source brings a manifest first wins.  After the
    turn of a list entry, a manifest message for the same identity
    with a sequence no higher than the entry's changes nothing; after a
    manifest message for a tracked identity, a list entry for it with
    a sequence no higher than the message's changes nothing. *)
Theorem X11_second_source_is_a_no_op :
  (∀ b td validator n td' n1 id manifest m,
     hexToBase58 (ValidatorList.validation_public_key validator) = Some id →
     decodeManifest (ValidatorList.manifest validator) = Some manifest →
     getUNL_validator b td validator n = (Returned td', n1) →
     ManifestMessage.master_key m = id →
     ManifestMessage.seq m ≤ Manifest.Sequence manifest →
     Network_onManifestReceived m n1 = (Returned tt, n1))
  ∧ (∀ m n v b td validator manifest,
       validators n !! ManifestMessage.master_key m = Some v →
       hexToBase58 (ValidatorList.validation_public_key validator)
       = Some (ManifestMessage.master_key m) →
       decodeManifest (ValidatorList.manifest validator) = Some manifest →
       Manifest.Sequence manifest ≤ ManifestMessage.seq m →
       getUNL_validator b td validator (Network_onManifestReceived m n).2
       = (Returned (remove td (ManifestMessage.master_key m)),
          (Network_onManifestReceived m n).2)).
Proof.
  split.
  - intros b td validator n td' n1 id manifest m Hid Hm Hturn <- Hle.
    destruct (getUNL_validator_at_least _ _ _ _ _ _ _ _ Hid Hm Hturn) as (v & Hv & ?).
    apply (stale_manifest_message m n1 v); [done | lia].
  - intros m n v b td validator manifest Hv Hid Hm Hle.
    pose proof (sequence_kept_Network_onManifestReceived
                  (ManifestMessage.master_key m) m n v Hv) as (v1 & Hv1 & Hle1).
    destruct (Network_onManifestReceived_outcome m n)
      as [[Hstale Hr] | (v0 & name & nm & Hv0 & Hlt & Hr)]; rewrite Hr in Hv1 |- *;
      simpl in Hv1 |- *.
    + destruct Hstale as [?|(v2 & Hv2 & ?)]; [congruence|].
      assert (v2 = v) as -> by congruence. assert (v1 = v) as -> by congruence.
      apply (stale_entry _ _ _ _ _ manifest v); [done | done | done | lia].
    + apply (stale_entry _ _ _ _ _ manifest v1); [done | done | done |].
      unfold manifest_applied in Hv1; simpl in Hv1.
      rewrite lookup_insert_eq in Hv1. injection Hv1 as <-. simpl. lia.
Qed.
(** *** The calls of [onUnlData] for a validator list *)

Lemma roster_calls_refl ids n n' :
  validators n' = validators n → calls n' = calls n → roster_calls ids n n'.
Proof.
  intros Hv Hc. split.
  - intros id. by apply sequence_kept_same_validators.
  - exists []. by rewrite app_nil_r.
Qed.

#[local] Existing Instance sequence_kept_preorder.

#[local] Instance roster_calls_preorder ids : PreOrder (roster_calls ids).
Proof.
  split.
  - intros n. by apply roster_calls_refl.
  - intros n1 n2 n3 [K12 (new1 & Hc1 & H1)] [K23 (new2 & Hc2 & H2)]. split.
    + intros id. by transitivity n2.
    + exists (new1 ++ new2). rewrite Hc2, Hc1, app_assoc. split; [done|].
      apply Forall_app. split.
      * eapply Forall_impl; [exact H1|].
        intros c (data & -> & ? & ? & ? & ? & v & Hv & ?). exists data. split; [done|].
        destruct (K23 _ v Hv) as (v' & ? & ?).
        repeat split; try done. exists v'. split; [done | lia].
      * eapply Forall_impl; [exact H2|].
        intros c (data & -> & ? & ? & ? & Hnew & Hv). exists data. split; [done|].
        repeat split; try done. intros Hd. specialize (Hnew Hd).
        destruct (validators n1 !! UnlData.validation_public_key_base58 data)
          as [v|] eqn:Hv1; [|done].
        destruct (K12 _ v Hv1) as (v' & ? & _). congruence.
Qed.

Lemma roster_calls_getUNL_validator ids b td validator :
  (∀ id, hexToBase58 (ValidatorList.validation_public_key validator) = Some id →
         id ∈ ids) →
  keeps (roster_calls ids) (getUNL_validator b td validator).
Proof.
  intros Hids n. split; [intros id; apply sequence_kept_getUNL_validator|].
  destruct (getUNL_validator_outcome b td validator n)
    as [(what & -> & _) | [(id' & manifest & v & _ & _ & _ & _ & ->)
       | (id' & manifest & signing_key & name & nm & Hid & _ & _ & _ & ->)]];
    simpl; try (exists []; by rewrite app_nil_r).
  eexists; split; [done|]. repeat constructor. eexists; split; [done|].
  unfold reported; simpl. repeat split; try done.
  - by apply Hids.
  - by intros ?%bool_decide_eq_true.
  - rewrite lookup_insert_eq. eexists; split; [done|]. simpl. lia.
Qed.

Lemma roster_calls_getUNL_validators ids b l :
  (∀ validator id, validator ∈ l →
     hexToBase58 (ValidatorList.validation_public_key validator) = Some id →
     id ∈ ids) →
  ∀ td, keeps (roster_calls ids) (getUNL_validators b td l).
Proof.
  induction l as [|validator l IH]; intros Hids td; simpl; keeps_go.
  - apply roster_calls_getUNL_validator. intros id. apply Hids. by left.
  - apply IH. intros validator' id ?. apply Hids. by right.
Qed.

(** X12. Every call a parsed validator list causes is a call of
    [onUnlData] flagged [isNewManifest], without the manifests-stream
    flag, for an identity the list names; it is flagged
    [isNewValidator] only if that identity was not tracked before the
    list; and once the request has been handled the identity is
    tracked with a sequence at least the reported one. *)
Theorem X12_calls_of_a_validator_list
    (n : Network) (blob : string) (validatorList : ValidatorList.t) :
  parseValidatorList blob = Some validatorList →
  let n' := step n (request_settles (Some blob)) in
  ∃ new, calls n' = calls n ++ new
    ∧ Forall (λ c, ∃ data, c = OnUnlData data
                ∧ reported (identities (ValidatorList.validators validatorList))
                           n n' data) new.
Proof.
  intros Hp n'. subst n'. unfold step; simpl. rewrite getUNL_then_cases, Hp.
  destruct (Z.leb_spec (ValidatorList.sequence validatorList)
                       (lastValidatorListSequence n)); simpl.
  { exists []. by rewrite app_nil_r. }
  set (l := ValidatorList.validators validatorList).
  set (n0 := set_lastValidatorListSequence _ n).
  set (b := bool_decide _). set (td0 := (map_to_list (validators n)).*1).
  pose proof (roster_calls_getUNL_validators (identities l) b l
                (λ validator id Hin Hid, elem_of_identities validator l id Hin Hid)
                td0 n0) as [_ (new & Hc & Hnew)].
  unfold bind.
  destruct (getUNL_validators b td0 l n0) as [[td|what] n1] eqn:Hloop; simpl in *.
  - rewrite delete_validators_result; simpl. exists new. split; [done|].
    destruct (getUNL_validators_returned b l td0 n0 td n1)
      as (_ & Htd & _); [apply NoDup_fst_map_to_list | done |].
    eapply Forall_impl; [exact Hnew|].
    intros c (data & -> & ? & ? & Hin & ? & v & Hv & ?). exists data. split; [done|].
    repeat split; try done. exists v. split; [|done]. simpl.
    rewrite lookup_foldl_delete, decide_False; [done|]. rewrite Htd. tauto.
  - exists new. split; [done|]. exact Hnew.
Qed.
(** *** New connections *)

Lemma stream_of_defined n streams address :
  validationStreams n = Some streams → stream_of n address = streams !! address.
Proof. intros Hn. unfold stream_of. by rewrite Hn. Qed.

Lemma connected_defined address n streams :
  validationStreams n = Some streams →
  connected address n
  = match streams !! address with
    | Some _ => n
    | None =>
        mkNetwork (network n) (objects n ++ [new_ValidationStream address])
          (Some (<[address := length (objects n)]> streams))
          (lastValidatorListSequence n) (validators n) (names n)
          (manifestKeys n) (calls n)
    end.
Proof.
  intros Hn. unfold connected, set_validationStreams, set_objects. rewrite Hn; simpl.
  by destruct (streams !! address).
Qed.

#[local] Instance streams_grown_preorder : PreOrder streams_grown.
Proof.
  split.
  - intros n. split; [done|]. split; [exists []; by rewrite app_nil_r|].
    split; [intros a k Hnone Hsome; congruence|]. done.
  - intros n1 n2 n3 (K12 & [a12 O12] & N12 & (Ea & Eb & Ec & Ed) & C12)
                    (K23 & [a23 O23] & N23 & (Fa & Fb & Fc & Fd) & C23).
    split; [intros a k ?; by apply K23, K12|].
    split; [exists (a12 ++ a23); by rewrite O23, O12, app_assoc|].
    split; [|split; [unfold same_registry; repeat split; congruence | congruence]].
    intros a k Hnone Hsome.
    destruct (stream_of n2 a) as [k2|] eqn:Hk2.
    + assert (k2 = k) as -> by (apply K23 in Hk2; congruence).
      destruct (N12 a k Hnone Hk2) as [? Hk]. split; [done|].
      rewrite O23. rewrite lookup_app_l; [done|]. by eapply lookup_lt_Some.
    + destruct (N23 a k Hk2 Hsome) as [Hle ?]. split; [|done].
      rewrite O12, length_app in Hle. lia.
Qed.

Lemma streams_grown_connected address n : streams_grown n (connected address n).
Proof.
  destruct (validationStreams n) as [streams|] eqn:Hn;
    [|unfold connected; by rewrite Hn].
  rewrite (connected_defined _ _ streams Hn).
  destruct (streams !! address) eqn:Ha; [done|].
  split; [|split; [|split; [|done]]]; simpl.
  - intros a k. rewrite (stream_of_defined n streams) by done.
    unfold stream_of; simpl. intros Hk.
    rewrite lookup_insert_ne; [done|]. intros ->. congruence.
  - by eexists.
  - intros a k Hnone. rewrite (stream_of_defined n streams) in Hnone by done.
    unfold stream_of; simpl.
    destruct (decide (address = a)) as [->|].
    + rewrite lookup_insert_eq. intros [= <-]. split; [done|].
      by rewrite list_lookup_middle.
    + rewrite lookup_insert_ne by done. congruence.
Qed.

Lemma streams_grown_resolve4 ips : ∀ n,
  streams_grown n (foldl (λ n ip, connected (address_of ip) n) n ips).
Proof.
  induction ips as [|ip ips IH]; intros n; simpl; [done|].
  etransitivity; [apply streams_grown_connected | apply IH].
Qed.

Lemma connected_present address n :
  is_Some (validationStreams n) →
  is_Some (stream_of (connected address n) address).
Proof.
  intros [streams Hn]. rewrite (connected_defined _ _ streams Hn).
  destruct (streams !! address) eqn:Ha.
  - rewrite (stream_of_defined n streams), Ha by done. by eexists.
  - unfold stream_of; simpl. rewrite lookup_insert_eq. by eexists.
Qed.

Lemma connected_stays_defined address n :
  is_Some (validationStreams n) → is_Some (validationStreams (connected address n)).
Proof.
  intros [streams Hn]. rewrite (connected_defined _ _ streams Hn).
  destruct (streams !! address); [by rewrite Hn | done].
Qed.

Lemma resolve4_present ips : ∀ n ip,
  is_Some (validationStreams n) →
  ip ∈ ips →
  is_Some (stream_of (foldl (λ n ip, connected (address_of ip) n) n ips)
                     (address_of ip)).
Proof.
  induction ips as [|ip' ips IH]; intros n ip Hn; [by intros ?%elem_of_nil|].
  intros [->|Hin]%elem_of_cons; simpl;
    [|by apply IH; [apply connected_stays_defined|]].
  destruct (connected_present (address_of ip') n Hn) as [k Hk].
  exists k. by apply (streams_grown_resolve4 ips).
Qed.

Lemma resolve4_only_resolved ips : ∀ n address,
  stream_of n address = None →
  is_Some (stream_of (foldl (λ n ip, connected (address_of ip) n) n ips) address) →
  ∃ ip, ip ∈ ips ∧ address = address_of ip.
Proof.
  induction ips as [|ip ips IH]; intros n address Hnone; simpl.
  - rewrite Hnone. by intros [? ?].
  - destruct (decide (address = address_of ip)) as [->|Hne].
    + intros _. exists ip. split; [by left | done].
    + intros Hsome. destruct (IH (connected (address_of ip) n) address) as (ip' & ? & ?).
      * destruct (validationStreams n) as [streams|] eqn:Hn;
          [|unfold connected; by rewrite Hn].
        rewrite (connected_defined _ _ streams Hn).
        rewrite (stream_of_defined n streams) in Hnone by done.
        destruct (streams !! address_of ip);
          [by rewrite (stream_of_defined n streams)|].
        unfold stream_of; simpl. by rewrite lookup_insert_ne.
      * done.
      * exists ip'. split; [by right | done].
Qed.

(** X13. The callback of [dns.resolve4], for an answer with addresses.
    With [validationStreams] [undefined], as the class leaves it, the
    callback throws a TypeError at the first address and constructs
    nothing.  With [validationStreams] an object, it returns and every
    address has a stream; a stream that is new belongs to one of the
    resolved addresses.  In both cases a stream that was registered
    stays registered under the same object, a new one is a freshly
    constructed object appended to the existing ones, and the registry
    and the calls are untouched. *)
Theorem X13_resolve4_connects_every_address (n : Network) (ips : list string) :
  let r := handle (resolve4_calls_back (Some ips)) n in
  match validationStreams n with
  | None =>
      r = (match ips with [] => Returned tt | _ :: _ => Thrown "TypeError" end, n)
  | Some _ =>
      r.1 = Returned tt
      ∧ (∀ ip, ip ∈ ips → is_Some (stream_of r.2 (address_of ip)))
      ∧ (∀ address stream,
           stream_of n address = None →
           stream_of r.2 address = Some stream →
           ∃ ip, ip ∈ ips ∧ address = address_of ip)
  end
  ∧ streams_grown n r.2.
Proof.
  intros r. subst r.
  change (handle (resolve4_calls_back (Some ips)) n)
    with (resolve4_callback (Some ips) n).
  rewrite resolve4_callback_connected; simpl.
  split; [|apply streams_grown_resolve4].
  destruct (validationStreams n) as [streams|] eqn:Hn.
  - split; [done|]. split.
    + intros ip. apply resolve4_present. by rewrite Hn.
    + intros address stream Hnone Hsome. apply (resolve4_only_resolved ips n); [done|].
      by rewrite Hsome.
  - rewrite connected_undefined by done. by destruct ips.
Qed.

Lemma resolve4_all_present ips : ∀ n,
  (∀ ip, ip ∈ ips → is_Some (stream_of n (address_of ip))) →
  foldl (λ n ip, connected (address_of ip) n) n ips = n.
Proof.
  induction ips as [|ip ips IH]; intros n Hall; simpl; [done|].
  assert (connected (address_of ip) n = n) as ->.
  { destruct (Hall ip) as [k Hk]; [by left|].
    destruct (validationStreams n) as [streams|] eqn:Hn;
      [|unfold connected; by rewrite Hn].
    rewrite (connected_defined _ _ streams Hn).
    rewrite (stream_of_defined n streams) in Hk by done. by rewrite Hk. }
  apply IH. intros ip' ?. apply Hall. by right.
Qed.

(** X14. A second answer of [dns.resolve4] with the same addresses, or
    a failed one, changes nothing: with [validationStreams] [undefined]
    neither answer registers anything, and with an object no stream is
    opened twice for an address. *)
Theorem X14_resolve4_twice (n : Network) (r : option (list string)) :
  step (step n (resolve4_calls_back r)) (resolve4_calls_back r)
  = step n (resolve4_calls_back r).
Proof.
  destruct r as [ips|]; [|done]. unfold step.
  change (handle (resolve4_calls_back (Some ips)))
    with (resolve4_callback (Some ips)).
  rewrite !resolve4_callback_connected; simpl.
  destruct (validationStreams n) as [streams|] eqn:Hn.
  - apply resolve4_all_present. intros ip. apply resolve4_present. by rewrite Hn.
  - rewrite (connected_undefined ips n Hn). by apply connected_undefined.
Qed.

(** *** The stream objects *)

#[local] Instance streams_wf_kept_preorder : PreOrder streams_wf_kept.
Proof.
  split; unfold streams_wf_kept; [by intros n ?|].
  intros n1 n2 n3 H12 H23 ?. by apply H23, H12.
Qed.

Lemma streams_wf_alter f this n :
  (∀ s, ValidationStream.address (f s) = ValidationStream.address s) →
  streams_wf_kept n (set_objects (alter f this) n).
Proof.
  intros Hf Hwf address stream Hk.
  change (stream_of n address = Some stream) in Hk. simpl.
  destruct (Hwf address stream Hk) as (s & Hs & Ha).
  destruct (decide (this = stream)) as [->|].
  - exists (f s). rewrite list_lookup_alter_eq, Hs. split; [done|]. by rewrite Hf.
  - exists s. by rewrite list_lookup_alter_ne.
Qed.

Lemma streams_wf_same n n' :
  objects n' = objects n → validationStreams n' = validationStreams n →
  streams_wf_kept n n'.
Proof.
  intros Ho Hv Hwf address stream. unfold stream_of. rewrite Ho, Hv. apply Hwf.
Qed.

Lemma streams_wf_connected address n : streams_wf_kept n (connected address n).
Proof.
  intros Hwf a k.
  destruct (validationStreams n) as [streams|] eqn:Hn;
    [|unfold connected; rewrite Hn; apply Hwf].
  rewrite (connected_defined _ _ streams Hn).
  destruct (streams !! address) eqn:Ha; [apply Hwf|].
  unfold stream_of; simpl.
  destruct (decide (address = a)) as [->|].
  - rewrite lookup_insert_eq. intros [= <-]. eexists.
    by rewrite list_lookup_middle.
  - rewrite lookup_insert_ne by done. intros Hk.
    destruct (Hwf a k) as (s & Hs & ?);
      [by rewrite (stream_of_defined n streams)|].
    exists s. split; [|done].
    rewrite lookup_app_l; [done|]. by eapply lookup_lt_Some.
Qed.

Lemma streams_wf_removed address n :
  streams_wf_kept n (set_validationStreams (delete address) n).
Proof.
  intros Hwf a k. unfold stream_of; simpl. intros Hk. apply Hwf.
  unfold stream_of. destruct (validationStreams n) as [streams|]; [|done].
  simpl in *. apply lookup_delete_Some in Hk as [_ ?]. done.
Qed.

Lemma streams_wf_step n i : streams_wf n → streams_wf (step n i).
Proof.
  apply (streams_step streams_wf_kept); intros;
    first [ by apply streams_wf_alter; intros; simpl; try case_match
          | apply streams_wf_connected
          | apply streams_wf_removed
          | by apply streams_wf_same ].
Qed.

(** With [validationStreams] [undefined] and no stream object, an input
    leaves both as they are. *)
#[local] Instance no_streams_kept_preorder : PreOrder no_streams_kept.
Proof.
  split; unfold no_streams_kept; [by intros n ?|].
  intros n1 n2 n3 H12 H23 ?. by apply H23, H12.
Qed.

Lemma no_streams_alter f this n : no_streams_kept n (set_objects (alter f this) n).
Proof. intros [Hv Ho]. split; [done|]. simpl. by rewrite Ho. Qed.

Lemma no_streams_same n n' :
  objects n' = objects n → validationStreams n' = validationStreams n →
  no_streams_kept n n'.
Proof. intros Ho Hv [??]. split; congruence. Qed.

Lemma no_streams_step n i : no_streams n → no_streams (step n i).
Proof.
  apply (streams_step no_streams_kept); intros;
    first [ apply no_streams_alter
          | by apply no_streams_same
          | intros [Hv Ho]; unfold connected; rewrite Hv; by split
          | intros [Hv Ho]; split; [simpl; by rewrite Hv | done] ].
Qed.

(** X15. Every entry of [validationStreams] refers to a stream object
    constructed for that address, and this stays so whatever inputs
    arrive.  On the object the class builds there is never an entry:
    the constructor throws in [refreshSubscriptions], and whatever
    inputs arrive afterwards [validationStreams] stays [undefined] and
    no stream object is constructed. *)
Theorem X15_streams_refer_to_their_objects (n : Network) (l : list Input) :
  (streams_wf n → streams_wf (run n l))
  ∧ ∀ t, Network_constructor t = (Thrown "TypeError", new_Network t)
         ∧ validationStreams (run (new_Network t) l) = None
         ∧ objects (run (new_Network t) l) = [].
Proof.
  split.
  - revert n. induction l as [|i l IH]; intros n Hwf; simpl; [done|].
    by apply IH, streams_wf_step.
  - intros t. split; [done|].
    assert (∀ n0, no_streams n0 → no_streams (run n0 l)) as H.
    { induction l as [|i l IH]; intros n0 Hn0; simpl; [done|].
      by apply IH, no_streams_step. }
    by apply (H (new_Network t)).
Qed.

#[local] Instance options_kept_preorder stream : PreOrder (options_kept stream).
Proof.
  split; unfold options_kept.
  - intros n s Hs. by exists s.
  - intros n1 n2 n3 H12 H23 s Hs.
    destruct (H12 s Hs) as (s2 & Hs2 & ? & ? & ? & ?).
    destruct (H23 s2 Hs2) as (s3 & Hs3 & ? & ? & ? & ?).
    exists s3. split; [done|]. unfold same_options. repeat split; congruence.
Qed.

Lemma options_kept_alter stream f this n :
  (∀ s, same_options s (f s)) →
  options_kept stream n (set_objects (alter f this) n).
Proof.
  intros Hf s Hs; simpl. destruct (decide (this = stream)) as [->|].
  - exists (f s). by rewrite list_lookup_alter_eq, Hs.
  - exists s. by rewrite list_lookup_alter_ne.
Qed.

Lemma options_kept_same stream n n' :
  objects n' = objects n → options_kept stream n n'.
Proof. intros Ho s Hs. exists s. by rewrite Ho. Qed.

Lemma options_kept_connected stream address n :
  options_kept stream n (connected address n).
Proof.
  intros s Hs. exists s. split; [|done]. unfold connected.
  destruct (validationStreams n) as [streams|]; [|done].
  destruct (streams !! address); [done|]. simpl.
  rewrite lookup_app_l; [done|]. by eapply lookup_lt_Some.
Qed.

Lemma options_kept_step stream n i : options_kept stream n (step n i).
Proof.
  apply (streams_step (options_kept stream)); intros;
    first [ by apply options_kept_alter; intros; unfold same_options; simpl;
               try case_match
          | apply options_kept_connected
          | by apply options_kept_same ].
Qed.

(** X16. A stream object is never dropped or rebuilt: whatever inputs
    arrive it is still at its place, with the address and the heartbeat
    options it was constructed with. *)
Theorem X16_stream_options_are_fixed
    (n : Network) (stream : nat) (s : ValidationStream.t) (l : list Input) :
  objects n !! stream = Some s →
  ∃ s', objects (run n l) !! stream = Some s' ∧ same_options s s'.
Proof.
  intros Hs.
  assert (options_kept stream n (run n l)) as H; [|by apply H].
  clear Hs. revert n. induction l as [|i l IH]; intros n; simpl; [done|].
  etransitivity; [apply options_kept_step | apply IH].
Qed.
(** *** What the events of a stream do *)

(** X17. When the socket of a stream opens, the two subscription
    requests are sent, [validations] first and [manifests] second; the
    heartbeat timer is armed with [serverPingInterval + latency] if the
    stream uses the heartbeat and left alone if not; nothing else
    changes. *)
Theorem X17_open_subscribes_and_arms
    (n : Network) (stream : nat) (s : ValidationStream.t) :
  objects n !! stream = Some s →
  let n' := step n (ws_emits stream ws_open) in
  (∃ s', objects n' !! stream = Some s'
     ∧ same_options s s'
     ∧ ValidationStream.ws_readyState s' = 1
     ∧ ValidationStream.ws_sent s'
       = ValidationStream.ws_sent s
         ++ [Request.mk 1 "subscribe" ["validations"];
             Request.mk 2 "subscribe" ["manifests"]]
     ∧ ValidationStream.pingTimeout s'
       = if ValidationStream.useHeartbeat s
         then Some (ValidationStream.serverPingInterval s + ValidationStream.latency s)
         else ValidationStream.pingTimeout s)
  ∧ only_stream_changed stream n n'.
Proof.
  intros Hs n'. subst n'. unfold step. rewrite (handle_ws_emits _ _ s) by done.
  unfold only_stream_changed, same_registry, same_options.
  destruct s as [a hb spi lat pt rs sent]; simpl.
  destruct hb; simpl; unfold subscribe, heartbeat, update_this; task_eval; simpl;
    (split; [|repeat split; try done; intros k ?;
              by rewrite !list_lookup_alter_ne by done]);
    eexists; rewrite !list_lookup_alter_eq, Hs; simpl;
    (split; [done|]); repeat split; try done;
    unfold ValidationStream.ws_send; simpl; by rewrite <- app_assoc.
Qed.

(** X18. A ping arms the heartbeat timer of a stream that uses the
    heartbeat with [serverPingInterval + latency], whatever was left of
    the previous delay, and changes nothing else; on a stream that does
    not use the heartbeat it changes nothing at all. *)
Theorem X18_ping_rearms_the_timer
    (n : Network) (stream : nat) (s : ValidationStream.t) :
  objects n !! stream = Some s →
  let n' := step n (ws_emits stream ws_ping) in
  (if ValidationStream.useHeartbeat s
   then objects n' !! stream
        = Some (ValidationStream.set_pingTimeout
                  (Some (ValidationStream.serverPingInterval s
                         + ValidationStream.latency s)) s)
        ∧ only_stream_changed stream n n'
   else n' = n).
Proof.
  intros Hs n'. subst n'. unfold step. rewrite (handle_ws_emits _ _ s) by done.
  unfold only_stream_changed, same_registry. simpl.
  destruct (ValidationStream.useHeartbeat s); simpl;
    unfold heartbeat, update_this; task_eval; simpl; [|done].
  split; [by rewrite list_lookup_alter_eq, Hs|].
  repeat split; try done. intros k ?. by rewrite list_lookup_alter_ne.
Qed.

(** X19. An error event of the socket, and a message that is neither a
    vote, a manifest nor the unknown-stream error, change nothing; data
    that does not parse makes the listener throw, also without
    changing anything. *)
Theorem X19_errors_and_unexpected_messages_are_ignored
    (n : Network) (stream : nat) :
  (∀ error, handle (ws_emits stream (ws_error error)) n = (Returned tt, n))
  ∧ (∀ data now,
       handle (ws_emits stream (ws_message (unexpected data) now)) n = (Returned tt, n))
  ∧ (∀ now, (handle (ws_emits stream (ws_message unparsable now)) n).2 = n)
  ∧ (∀ now, is_Some (objects n !! stream) →
            handle (ws_emits stream (ws_message unparsable now)) n
            = (Thrown "SyntaxError", n)).
Proof.
  destruct (objects n !! stream) as [s|] eqn:Hs.
  - repeat split; intros; by rewrite (handle_ws_emits _ _ s).
  - repeat split; intros; by rewrite handle_ws_no_stream.
Qed.
(** Run the listeners of a stream on the state at hand. *)
Ltac stream_eval :=
  repeat (progress (
    simpl;
    unfold pingTimeout_expires, pingTimeout_callback, message, ws_terminate,
      heartbeat, heartbeat_close, plain_close, subscribe, update_this,
      onCloseAddress, stream_of;
    task_eval; simpl)).

(** The same, with what is known of [validationStreams]: [Hn] for the
    field, [Ha] for the entry of the address. *)
Ltac stream_eval_with Hn Ha :=
  repeat (progress (
    stream_eval; rewrite ?Hn; simpl; rewrite ?Ha, ?lookup_delete_eq; simpl)).

(** X20. A close event marks the socket CLOSED, clears the heartbeat
    timer of a stream that uses the heartbeat, and unregisters the
    address of the stream, whichever object was registered under it. *)
Theorem X20_close_unregisters_the_address
    (n : Network) (stream : nat) (s : ValidationStream.t) (code : Z) (reason : string) :
  objects n !! stream = Some s →
  let n' := step n (ws_emits stream (ws_close code reason)) in
  (∃ s', objects n' !! stream = Some s'
     ∧ same_options s s'
     ∧ ValidationStream.ws_readyState s' = 3
     ∧ ValidationStream.ws_sent s' = ValidationStream.ws_sent s
     ∧ ValidationStream.pingTimeout s'
       = if ValidationStream.useHeartbeat s then None
         else ValidationStream.pingTimeout s)
  ∧ stream_unregistered stream (ValidationStream.address s)
                        (CauseClose code reason) n n'.
Proof.
  intros Hs n'. subst n'. unfold step. rewrite (handle_ws_emits _ _ s) by done.
  unfold stream_unregistered, same_registry, same_options.
  destruct s as [a hb spi lat pt rs sent].
  destruct (validationStreams n) as [streams|] eqn:Hn;
    [destruct (streams !! a) as [k|] eqn:Ha|
     assert (@None nat = None) as Ha by done]; destruct hb;
    stream_eval_with Hn Ha;
    (split; [eexists; rewrite !list_lookup_alter_eq, Hs; simpl; done|]);
    (split; [by rewrite ?(delete_id _ _ Ha)|]);
    (split; [intros ??; by rewrite !list_lookup_alter_ne by done|]);
    (split; [done|]);
    first [ exists []; split; [done | constructor]
          | eexists [_]; rewrite <- app_assoc; split; [done | by repeat constructor] ].
Qed.
(** X21. When the heartbeat timer of a stream runs out, the socket is
    terminated (CLOSING, unless it was already CLOSED), the timer is no
    longer pending, [onClose] is called once with the heartbeat error
    and the address of the stream is unregistered.  A timer that is not
    pending does nothing. *)
Theorem X21_heartbeat_timeout (n : Network) (stream : nat) :
  (∀ s delay,
     objects n !! stream = Some s →
     ValidationStream.pingTimeout s = Some delay →
     let n' := step n (pingTimeout_runs_out stream) in
     let cause := CauseError "Terminated due to lack of heartbeat" in
     (∃ s', objects n' !! stream = Some s'
        ∧ same_options s s'
        ∧ ValidationStream.pingTimeout s' = None
        ∧ ValidationStream.ws_sent s' = ValidationStream.ws_sent s
        ∧ ValidationStream.ws_readyState s'
          = if ValidationStream.ws_readyState s =? 3 then 3 else 2)
     ∧ stream_unregistered stream (ValidationStream.address s) cause n n'
     ∧ calls n' = calls n ++ [OnClose (ValidationStream.address s) cause])
  ∧ ((∀ s, objects n !! stream = Some s → ValidationStream.pingTimeout s = None) →
     step n (pingTimeout_runs_out stream) = n).
Proof.
  split.
  - intros s delay Hs Hp n' cause. subst n' cause. unfold step.
    rewrite handle_pingTimeout, Hs.
    unfold stream_unregistered, same_registry, same_options.
    destruct s as [a hb spi lat pt rs sent]. simpl in Hp. subst pt.
    destruct (validationStreams n) as [streams|] eqn:Hn;
      [destruct (streams !! a) as [k|] eqn:Ha|
       assert (@None nat = None) as Ha by done];
      stream_eval; rewrite ?Hs; stream_eval_with Hn Ha;
      (split; [eexists; rewrite !list_lookup_alter_eq, Hs; simpl;
               split; [reflexivity|];
               destruct (Z.eqb_spec rs 3) as [->|]; simpl; done|]);
      (split; [|done]);
      (split; [by rewrite ?(delete_id _ _ Ha)|]);
      (split; [intros ??; by rewrite !list_lookup_alter_ne by done|]);
      (split; [done|]); exists []; (split; [done | constructor]).
  - intros Hnone. unfold step. rewrite handle_pingTimeout.
    unfold pingTimeout_expires. task_eval.
    destruct (objects n !! stream) as [s|] eqn:Hs; [|done].
    by rewrite (Hnone s eq_refl).
Qed.

(** X22. The unknown-stream error of the rippled terminates the socket
    (CLOSING, unless it was already CLOSED), calls [onClose] once with
    that error and unregisters the address of the stream; the
    heartbeat timer is left as it was. *)
Theorem X22_unknownStream_terminates
    (n : Network) (stream : nat) (s : ValidationStream.t) (now : Z) :
  objects n !! stream = Some s →
  let n' := step n (ws_emits stream (ws_message unknownStream now)) in
  let cause :=
    CauseError ("Terminated due " +:+ dquote +:+ "unknownStream" +:+ dquote +:+ " message") in
  (∃ s', objects n' !! stream = Some s'
     ∧ same_options s s'
     ∧ ValidationStream.pingTimeout s' = ValidationStream.pingTimeout s
     ∧ ValidationStream.ws_sent s' = ValidationStream.ws_sent s
     ∧ ValidationStream.ws_readyState s'
       = if ValidationStream.ws_readyState s =? 3 then 3 else 2)
  ∧ stream_unregistered stream (ValidationStream.address s) cause n n'
  ∧ calls n' = calls n ++ [OnClose (ValidationStream.address s) cause].
Proof.
  intros Hs n' cause. subst n' cause. unfold step.
  rewrite (handle_ws_emits _ _ s) by done.
  unfold stream_unregistered, same_registry, same_options.
  destruct s as [a hb spi lat pt rs sent].
  destruct (validationStreams n) as [streams|] eqn:Hn;
    [destruct (streams !! a) as [k|] eqn:Ha|
     assert (@None nat = None) as Ha by done];
    stream_eval_with Hn Ha;
    (split; [eexists; rewrite !list_lookup_alter_eq, Hs; simpl;
             split; [reflexivity|];
               destruct (Z.eqb_spec rs 3) as [->|]; simpl; done|]);
    (split; [|done]);
    (split; [by rewrite ?(delete_id _ _ Ha)|]);
    (split; [intros ??; by rewrite !list_lookup_alter_ne by done|]);
    (split; [done|]); exists []; (split; [done | constructor]).
Qed.

Lemma step_vote n stream s m now :
  objects n !! stream = Some s →
  step n (ws_emits stream (ws_message (validationReceived m) now))
  = add_call (OnValidationReceived (ValidationMessage.set_timestamp now m)) n.
Proof. intros Hs. unfold step. by rewrite (handle_ws_message _ _ s). Qed.

(** X23. Votes delivered to a stream reach [onValidationReceived] one
    call per vote, in the order delivered, each with its own receive
    time, none lost and none repeated; nothing else is called and
    nothing else changes. *)
Theorem X23_votes_are_forwarded_in_order
    (n : Network) (stream : nat) (s : ValidationStream.t)
    (votes : list (ValidationMessage.t * Z)) :
  objects n !! stream = Some s →
  let n' := run n (deliver_votes stream votes) in
  calls n'
  = calls n ++ ((λ vote, OnValidationReceived
                           (ValidationMessage.set_timestamp vote.2 vote.1)) <$> votes)
  ∧ objects n' = objects n
  ∧ validationStreams n' = validationStreams n
  ∧ same_registry n n'.
Proof.
  intros Hs n'. subst n'. revert n Hs.
  induction votes as [|[m now] votes IH]; intros n Hs; simpl.
  - by rewrite app_nil_r.
  - rewrite (step_vote _ _ s) by done.
    destruct (IH (add_call (OnValidationReceived (ValidationMessage.set_timestamp now m)) n))
      as (Hc & Ho & Hv & Hr); [done|].
    rewrite Hc, Ho, Hv. simpl. rewrite <- app_assoc. repeat split; try done; apply Hr.
Qed.
(** *** Streams without heartbeat *)

#[local] Instance timer_not_armed_preorder stream : PreOrder (timer_not_armed stream).
Proof.
  split; unfold timer_not_armed.
  - intros n s Hs ?. by exists s.
  - intros n1 n2 n3 H12 H23 s Hs Hp.
    destruct (H12 s Hs Hp) as (s2 & Hs2 & (? & ? & ? & ?) & Hp2).
    destruct (H23 s2 Hs2 Hp2) as (s3 & Hs3 & (? & ? & ? & ?) & Hp3).
    exists s3. split; [done|]. unfold same_options. repeat split; congruence.
Qed.

Lemma timer_not_armed_alter stream f this n :
  (this = stream →
   ∀ s, same_options s (f s)
        ∧ (ValidationStream.pingTimeout s = None →
           ValidationStream.pingTimeout (f s) = None)) →
  timer_not_armed stream n (set_objects (alter f this) n).
Proof.
  intros Hf s Hs Hp; simpl. destruct (decide (this = stream)) as [->|].
  - exists (f s). rewrite list_lookup_alter_eq, Hs. split; [done|].
    destruct (Hf eq_refl s) as [? Hnone]. split; [done | by apply Hnone].
  - exists s. by rewrite list_lookup_alter_ne.
Qed.

Lemma timer_not_armed_same stream n n' :
  objects n' = objects n → timer_not_armed stream n n'.
Proof. intros Ho s Hs ?. exists s. by rewrite Ho. Qed.

Lemma timer_not_armed_connected stream address n :
  timer_not_armed stream n (connected address n).
Proof.
  intros s Hs ?. exists s. split; [|done]. unfold connected.
  destruct (validationStreams n) as [streams|]; [|done].
  destruct (streams !! address); [done|]. simpl.
  rewrite lookup_app_l; [done|]. by eapply lookup_lt_Some.
Qed.

Lemma timer_not_armed_step stream n i s :
  objects n !! stream = Some s →
  ValidationStream.useHeartbeat s = false →
  timer_not_armed stream n (step n i).
Proof.
  intros Hs Hhb.
  apply (streams_step (timer_not_armed stream)); intros;
    first [ apply timer_not_armed_connected
          | by apply timer_not_armed_same
          | apply timer_not_armed_alter; intros ? ?; unfold same_options; simpl;
            try case_match; try done; congruence ].
Qed.

(** X24. A stream that does not use the heartbeat and has no timer
    pending never gets one: whatever inputs arrive, its timer stays
    unarmed, so the heartbeat can never terminate it. *)
Theorem X24_no_heartbeat_no_timer
    (n : Network) (stream : nat) (s : ValidationStream.t) (l : list Input) :
  objects n !! stream = Some s →
  ValidationStream.useHeartbeat s = false →
  ValidationStream.pingTimeout s = None →
  ∃ s', objects (run n l) !! stream = Some s'
        ∧ same_options s s'
        ∧ ValidationStream.pingTimeout s' = None.
Proof.
  revert n s. induction l as [|i l IH]; intros n s Hs Hhb Hp; simpl.
  - by exists s.
  - destruct (timer_not_armed_step stream n i s Hs Hhb s Hs Hp)
      as (s1 & Hs1 & (Ha & Hb & Hc & Hd) & Hp1).
    destruct (IH (step n i) s1 Hs1) as (s' & Hs' & (? & ? & ? & ?) & ?);
      [congruence | done |].
    exists s'. split; [done|]. unfold same_options. repeat split; congruence.
Qed.
(** *** The names reported to [onUnlData] *)

(** What follows [fetchName] starts from a state in which the returned
    name is the identity or the cached truthy name. *)
Lemma keeps_fetchName_then (R : relation Network) `{!PreOrder R} {B}
    id (k : string → Task B) :
  keeps R (fetchName id) →
  (∀ name n1,
     name = id ∨ (names n1 !! id = Some name ∧ truthy name = true) →
     R n1 (k name n1).2) →
  keeps R (bind (fetchName id) k).
Proof.
  intros Hf Hk n. specialize (Hf n). unfold bind.
  destruct (fetchName_cases id n)
    as [(name & Hn & Ht & Heq) | [_ [(domain & _ & Hd & Heq) | [_ Heq]]]];
    rewrite Heq in Hf |- *; simpl in *.
  - apply Hk. by right.
  - etransitivity; [exact Hf|]. apply Hk. right. simpl.
    by rewrite lookup_insert_eq.
  - apply Hk. by left.
Qed.

#[local] Instance calls_named_preorder : PreOrder calls_named.
Proof.
  split.
  - intros n. split; [reflexivity|]. exists []. by rewrite app_nil_r.
  - intros n1 n2 n3 (Hk12 & new12 & Hc12 & Hn12) (Hk23 & new23 & Hc23 & Hn23).
    split; [by transitivity n2|].
    exists (new12 ++ new23). split; [by rewrite Hc23, Hc12, app_assoc|].
    apply Forall_app. split; [|done].
    eapply Forall_impl; [exact Hn12|]. intros c Hc data ->.
    destruct (Hc data eq_refl) as [Hid | [Hname Ht]]; [by left | right].
    split; [|done]. by apply Hk23.
Qed.

Lemma calls_named_quiet n n' :
  names n' = names n → calls n' = calls n → calls_named n n'.
Proof.
  intros Hn Hc. split; [by apply names_kept_same_names|].
  exists []. by rewrite app_nil_r.
Qed.

Lemma calls_named_call n c :
  (∀ data, c = OnUnlData data → named n data) → calls_named n (add_call c n).
Proof.
  intros Hc. split; [by apply names_kept_same_names|].
  exists [c]. split; [done|]. apply Forall_singleton. exact Hc.
Qed.

Lemma calls_named_fetchName id : keeps calls_named (fetchName id).
Proof.
  intros n. split; [apply names_kept_fetchName|].
  exists []. rewrite app_nil_r. split; [|done].
  destruct (fetchName_outcome id n) as (name & nm & ->). done.
Qed.

Ltac named_step :=
  lazymatch goal with
  | |- keeps _ (mbind _ _) => unfold mbind, Task_bind
  | |- keeps _ (bind (fetchName _) _) =>
      apply keeps_fetchName_then;
        [tc_solve | apply calls_named_fetchName | intros ? ? ?]
  | |- keeps _ (modify _) =>
      apply keeps_modify; intros ?; by apply calls_named_quiet
  | _ => keeps_step
  end.

Ltac named_call :=
  lazymatch goal with
  | H : _ ∨ _ |- calls_named ?n1 _ =>
      lazymatch goal with
      | |- context [OnUnlData ?d] =>
          transitivity (add_call (OnUnlData d) n1);
            [apply calls_named_call; intros ? [= <-]; exact H
            | by apply calls_named_quiet]
      end
  end.

Lemma calls_named_getUNL_validator b td validator :
  keeps calls_named (getUNL_validator b td validator).
Proof. unfold getUNL_validator. repeat named_step. named_call. Qed.

Lemma calls_named_Network_onManifestReceived m :
  keeps calls_named (Network_onManifestReceived m).
Proof.
  unfold Network_onManifestReceived. repeat named_step. named_call.
Qed.

(** X25. The name reported with a manifest is never made up: for
    every call of [onUnlData] made while one input is handled, the
    reported [validatorName] is the identity of the validator or the
    truthy name that [names] holds for that identity when the handler
    is done. *)
Theorem X25_reported_names_are_cached_or_the_identity (n : Network) (i : Input) :
  ∃ new, calls (step n i) = calls n ++ new
    ∧ ∀ data, OnUnlData data ∈ new → named (step n i) data.
Proof.
  assert (calls_named n (step n i)) as (_ & new & Hc & Hnew).
  { apply (keeps_handle calls_named); try tc_solve.
    - intros. by apply calls_named_quiet.
    - intros. by apply calls_named_quiet.
    - intros. by apply calls_named_call.
    - intros. by apply calls_named_call.
    - apply calls_named_Network_onManifestReceived.
    - intros settled. apply keeps_getUNL; try tc_solve.
      + intros. by apply calls_named_quiet.
      + apply calls_named_getUNL_validator.
      + intros. by apply calls_named_quiet. }
  exists new. split; [done|]. intros data Hin.
  rewrite Forall_forall in Hnew. by apply (Hnew _ Hin).
Qed.
End further.

(** ** The example app *)

Lemma string_app_nil_l (a : string) : "" +:+ a = a.
Proof. reflexivity. Qed.

Lemma string_app_cons x (a b : string) : String x a +:+ b = String x (a +:+ b).
Proof. reflexivity. Qed.

Lemma string_app_assoc (a b c : string) : (a +:+ b) +:+ c = a +:+ (b +:+ c).
Proof.
  induction a as [|x a IH]; [done|].
  by rewrite !string_app_cons, IH.
Qed.

Lemma string_app_nil_r (a : string) : a +:+ "" = a.
Proof.
  induction a as [|x a IH]; [done|].
  by rewrite string_app_cons, IH.
Qed.

Section app_properties.
Context `{App.Services}.

(** Callbacks only add lines, each to its own buffer, in the order
    they run. *)
Lemma callbacks_buffers l : ∀ st,
  App.callbacks st l
  = App.mk (App.unlData st +:+ App.unl_lines l)
           (App.validationMessages st +:+ App.validation_lines l)
           (App.appended st).
Proof.
  induction l as [|[data|m] l IH]; intros [u v a]; simpl.
  - by rewrite !string_app_nil_r.
  - rewrite IH; simpl. by rewrite !string_app_assoc.
  - rewrite IH; simpl. by rewrite !string_app_assoc.
Qed.

(** X26. One run of the interval function appends to [unl-data.log]
    the roster lines buffered when it started, and to the validations
    file the compressed votes buffered when the first append resolved.
    Roster lines that arrive while the first append is awaited, and
    votes that arrive after the compression has started, are in
    neither file nor buffer afterwards: the buffers are reset over
    them. *)
Theorem X26_flush_writes_and_resets
    (during_append during_compress during_second_append : list App.Callback)
    (now : string) (st : App.State) :
  App.flush during_append during_compress during_second_append now st
  = App.mk
      (App.unl_lines during_compress +:+ App.unl_lines during_second_append)
      ""
      (App.appended st
       ++ [("unl-data.log", App.unlData st);
           ("validations-" +:+ now +:+ ".gz.b64",
            App.compress (App.validationMessages st
                          +:+ App.validation_lines during_append))]).
Proof.
  unfold App.flush, App.flush_start, App.flush_after_append,
    App.flush_after_compress, App.flush_after_second_append.
  repeat (rewrite callbacks_buffers; simpl).
  by rewrite string_app_nil_l, <- app_assoc.
Qed.

(** X27. When no callback runs while the interval function is waiting,
    nothing is lost and nothing is written twice: two runs write, in
    order, exactly the lines received before the first and the lines
    received between the two, and leave both buffers empty. *)
Theorem X27_undisturbed_flushes_write_everything_once
    (before between : list App.Callback) (now1 now2 : string) (st : App.State) :
  App.flush [] [] [] now2
    (App.callbacks (App.flush [] [] [] now1 (App.callbacks st before)) between)
  = App.mk "" ""
      (App.appended st
       ++ [("unl-data.log", App.unlData st +:+ App.unl_lines before);
           ("validations-" +:+ now1 +:+ ".gz.b64",
            App.compress (App.validationMessages st +:+ App.validation_lines before));
           ("unl-data.log", App.unl_lines between);
           ("validations-" +:+ now2 +:+ ".gz.b64",
            App.compress (App.validation_lines between))]).
Proof.
  unfold App.flush, App.flush_start, App.flush_after_append,
    App.flush_after_compress, App.flush_after_second_append.
  repeat (rewrite callbacks_buffers; simpl).
  rewrite ?string_app_nil_l, ?string_app_nil_r.
  by rewrite <- !app_assoc.
Qed.
End app_properties.

(** * The claims at concrete inputs *)

#[local] Existing Instance Demo.ext.

(** C1. The validator list first gives [nA] the signing key [nk1]
    (sequence 5), then [nk2] (sequence 7).  After the second list [nk1]
    still maps to [nA] in [manifestKeys]: [getUNL] installs the new key
    and never deletes the old one.  The same rotation delivered as a
    manifest message does delete it. *)
Theorem C1_roster_rotation_leaves_old_key :
  let n := run Demo.start [request_settles (Some "v1")] in
  let by_roster := step n (request_settles (Some "v2")) in
  let by_stream :=
    (Network_onManifestReceived (ManifestMessage.mk "nA" "nk2" 7 "" "") n).2 in
  validators n !! "nA" = Some (Validator.mk "nk1" 5)
  ∧ manifestKeys n !! "nk1" = Some "nA"
  ∧ validators by_roster !! "nA" = Some (Validator.mk "nk2" 7)
  ∧ manifestKeys by_roster !! "nk2" = Some "nA"
  ∧ manifestKeys by_roster !! "nk1" = Some "nA"
  ∧ validators by_stream !! "nA" = Some (Validator.mk "nk2" 7)
  ∧ manifestKeys by_stream !! "nk2" = Some "nA"
  ∧ manifestKeys by_stream !! "nk1" = None.
Proof. vm_compute. repeat split. Qed.

(** C5. A stream built with the default options is opened and then gets
    an ordinary close frame.  Both close listeners run: [onClose] is
    called twice with the same code and reason, and the second call
    throws because the first has already deleted the stream from
    [validationStreams]. *)
Theorem C5_close_frame_calls_onClose_twice :
  let address := "ws://1.2.3.4:51233" in
  let n := run Demo.start [resolve4_calls_back (Some ["1.2.3.4"]); ws_emits 0 ws_open] in
  let closed := handle (ws_emits 0 (ws_close 1000 "bye")) n in
  validationStreams n = Some {[address := 0%nat]}
  ∧ ValidationStream.useHeartbeat <$> objects n !! 0%nat = Some true
  ∧ onClose_calls address (calls n) = []
  ∧ onClose_calls address (calls closed.2)
    = [CauseClose 1000 "bye"; CauseClose 1000 "bye"]
  ∧ closed.1 = Thrown "TypeError"
  ∧ validationStreams closed.2 = Some ∅.
Proof. vm_compute. repeat split. Qed.

(** C2.  [nA] is tracked with signing key [nk1]; the next validator
    list is newer and names nobody.  [getUNL] deletes [nA] from
    [validators], and [nk1] still maps to [nA] in [manifestKeys]: the
    loop over [validatorsToDelete] deletes from [validators] only.  The
    same missing deletion leaves the old key behind in C1. *)
Theorem C2_roster_removal_leaves_index_entry :
  let n := run Demo.start [request_settles (Some "v1")] in
  let n' := step n (request_settles (Some "v3")) in
  validators n !! "nA" = Some (Validator.mk "nk1" 5)
  ∧ manifestKeys n !! "nk1" = Some "nA"
  ∧ parseValidatorList "v3" = Some (ValidatorList.mk 3 [])
  ∧ lastValidatorListSequence n' = 3
  ∧ validators n' !! "nA" = None
  ∧ manifestKeys n' !! "nk1" = Some "nA".
Proof. vm_compute. repeat split. Qed.

(** C3, counterexample.  The same vote, signed with [nk1], is delivered
    once while [manifestKeys] maps [nk1] to [nA] and once while it is
    empty.  [onValidationReceived] gets the same argument both times:
    the vote with its timestamp, and nothing of [nA]. *)
Lemma C3_counterexample :
  let resolving := run Demo.start [resolve4_calls_back (Some ["1.2.3.4"]);
                                   request_settles (Some "v1")] in
  let empty := run Demo.start [resolve4_calls_back (Some ["1.2.3.4"])] in
  let vote := ws_emits 0 (ws_message (validationReceived (Demo.vote "nk1")) 42) in
  manifestKeys resolving !! "nk1" = Some "nA"
  ∧ manifestKeys empty !! "nk1" = None
  ∧ onValidationReceived_calls (calls (step resolving vote))
    = [ValidationMessage.set_timestamp 42 (Demo.vote "nk1")]
  ∧ onValidationReceived_calls (calls (step empty vote))
    = [ValidationMessage.set_timestamp 42 (Demo.vote "nk1")].
Proof. vm_compute. repeat split. Qed.

(** C4, counterexample.  The list has version 1 and two entries; the
    manifest of the second does not decode.  [getUNL] throws, and the
    registry is not what it was: the version is 1, [nA] of the first
    entry is tracked and indexed, and [onUnlData] has been called. *)
Lemma C4_counterexample :
  let failed := handle (request_settles (Some "w1")) Demo.start in
  decodeManifest "garbage" = None
  ∧ failed.1 = Thrown "decode"
  ∧ lastValidatorListSequence Demo.start = 0
  ∧ lastValidatorListSequence failed.2 = 1
  ∧ validators Demo.start !! "nA" = None
  ∧ validators failed.2 !! "nA" = Some (Validator.mk "nk1" 5)
  ∧ manifestKeys failed.2 !! "nk1" = Some "nA"
  ∧ length (calls failed.2) = 1%nat.
Proof. vm_compute. repeat split. Qed.

(** C9, counterexample.  Three validator lists are applied in turn: one
    naming [nA], one naming nobody, one naming [nB].  The third is not
    the first list applied, yet its call of [onUnlData] carries
    [isDuringStartup = true], because the second list emptied
    [validators]. *)
Lemma C9_counterexample :
  let n := run Demo.start [request_settles (Some "v1"); request_settles (Some "v3")] in
  let n' := step n (request_settles (Some "v4")) in
  length (calls n) = 1%nat
  ∧ validators n = ∅
  ∧ calls n' = calls n ++ [OnUnlData (UnlData.mk true true true "nB" "nB" "nk4" 1 None)].
Proof. vm_compute. repeat split. Qed.

(** ** Instances of the theorems that have hypotheses *)

Lemma C6_witness :
  let n := run Demo.start [request_settles (Some "v2")] in
  lastValidatorListSequence n ≤ lastValidatorListSequence (run n [request_settles (Some "v1")])
  ∧ handle (request_settles (Some "v1")) n = (Returned tt, n).
Proof.
  intros n. split.
  - apply (proj1 (C6_roster_version_monotone_and_stale_noop n)).
  - apply (proj2 (C6_roster_version_monotone_and_stale_noop n) "v1"
             (ValidatorList.mk 1 [ValidatorList.mk_entry "A" "A/5"])).
    + reflexivity.
    + vm_compute. discriminate.
Defined.

Lemma C8_witness :
  let m := ManifestMessage.mk "nA" "nk3" 9 "" "" in
  Network_onManifestReceived m Demo.start = (Returned tt, Demo.start)
  ∧ ∀ stream now,
      step Demo.start (ws_emits stream (ws_message (manifestReceived m) now)) = Demo.start.
Proof.
  intros m. apply (C8_stream_manifest_never_creates Demo.start m). reflexivity.
Defined.

Lemma C3_witness :
  let n := run Demo.start [resolve4_calls_back (Some ["1.2.3.4"]);
                           request_settles (Some "v1")] in
  handle (ws_emits 0 (ws_message (validationReceived (Demo.vote "nk1")) 42)) n
  = (Returned tt,
     add_call (OnValidationReceived (ValidationMessage.set_timestamp 42 (Demo.vote "nk1"))) n).
Proof.
  intros n.
  apply (C3_vote_forwarded_with_timestamp n 0
           (new_ValidationStream "ws://1.2.3.4:51233") (Demo.vote "nk1") 42).
  reflexivity.
Defined.

Lemma C10_witness :
  let n := run Demo.start [resolve4_calls_back (Some ["1.2.3.4"]);
                           request_settles (Some "v1")] in
  same_registry n (step n (ws_emits 0 (ws_close 1000 "bye"))).
Proof.
  intros n. apply (proj2 (C10_votes_do_not_write_registry n)). reflexivity.
Defined.

Lemma C7_witness :
  let n := run Demo.start [request_settles (Some "v2")] in
  Network_onManifestReceived (ManifestMessage.mk "nA" "nk3" 6 "" "") n = (Returned tt, n)
  ∧ getUNL_validator false [] (ValidatorList.mk_entry "A" "A/5") n
    = (Returned (remove [] "nA"), n).
Proof.
  intros n.
  pose proof (C7_manifest_sequence_monotone n "nA" (Validator.mk "nk2" 7) eq_refl)
    as (_ & _ & Hstream & Hroster).
  split.
  - apply Hstream; [reflexivity | vm_compute; discriminate].
  - apply (Hroster false [] _ (Manifest.mk "k1" 5));
      [reflexivity | reflexivity | vm_compute; discriminate].
Defined.

Lemma C4_witness :
  handle (request_settles (Some "w1")) Demo.start
  = (Thrown "decode", run Demo.start [request_settles (Some "v1")]).
Proof.
  apply (proj2 (proj2 (C4_failure_keeps_what_was_applied Demo.start)) "w1"
           (ValidatorList.mk 1 [ValidatorList.mk_entry "A" "A/5";
                                ValidatorList.mk_entry "B" "garbage"])
           [ValidatorList.mk_entry "A" "A/5"] (ValidatorList.mk_entry "B" "garbage") []
           [] (run Demo.start [request_settles (Some "v1")]) "decode");
    reflexivity.
Defined.

(** ** Instances of the further properties that have hypotheses *)

Lemma X1_witness :
  indexOf ["a"; "b"; "a"] "c" = -1
  ∧ ∃ i : nat, indexOf ["a"; "b"; "a"; "b"] "b" = Z.of_nat i
      ∧ ["a"; "b"; "a"; "b"] !! i = Some "b"
      ∧ ∀ j : nat, (j < i)%nat → ["a"; "b"; "a"; "b"] !! j ≠ Some "b".
Proof.
  split.
  - apply (proj1 (X1_indexOf_first_occurrence ["a"; "b"; "a"] "c")).
    apply (bool_decide_unpack _). by vm_compute.
  - apply (proj2 (X1_indexOf_first_occurrence ["a"; "b"; "a"; "b"] "b")).
    apply (bool_decide_unpack _). by vm_compute.
Defined.

Lemma X2_witness : remove ["a"; "b"] "c" = ["a"; "b"].
Proof.
  apply (X2_remove_absent ["a"; "b"] "c").
  apply (bool_decide_unpack _). by vm_compute.
Defined.

Lemma X3_witness :
  remove (["a"] ++ "b" :: ["c"; "b"]) "b" = ["a"] ++ ["c"; "b"]
  ∧ length (remove (["a"] ++ "b" :: ["c"; "b"]) "b")
    = (length (["a"] ++ "b" :: ["c"; "b"]) - 1)%nat.
Proof.
  apply (X3_remove_first_occurrence ["a"] ["c"; "b"] "b").
  apply (bool_decide_unpack _). by vm_compute.
Defined.

Lemma X4_witness :
  let n := run Demo.start [request_settles (Some "v2")] in
  lastValidatorListSequence (step n (request_settles (Some "v1"))) = Z.max 2 1.
Proof.
  intros n.
  apply (X4_stored_version_is_max n "v1"
           (ValidatorList.mk 1 [ValidatorList.mk_entry "A" "A/5"])).
  reflexivity.
Defined.


Lemma X7_witness :
  let n := run Demo.start [resolve4_calls_back (Some ["1.2.3.4"]);
                           request_settles (Some "v1")] in
  let m := ManifestMessage.mk "nA" "nk2" 7 "" "" in
  let n' := step n (ws_emits 0 (ws_message (manifestReceived m) 1)) in
  validators n' !! "nA" = Some (Validator.mk "nk2" 7)
  ∧ (is_Some (validators n' !! "nA") ↔ is_Some (validators n !! "nA"))
  ∧ (is_Some (validators n' !! "nB") ↔ is_Some (validators n !! "nB")).
Proof.
  intros n m n'. split; [reflexivity|].
  assert (∀ settled, ws_emits 0 (ws_message (manifestReceived m) 1)
                     ≠ request_settles settled) as Hi by (intros settled; discriminate).
  split; apply (X7_only_the_validator_list_changes_membership n _ Hi).
Defined.

Lemma X8_witness :
  let n := run Demo.start [request_settles (Some "v1")] in
  names (event_run (n, [])
           [fetchName_called "nA";
            fetchName_request_settles "nA" (Some "b.example");
            input (request_settles (Some "v4"))]).1 !! "nA"
  = Some "a.example"
  ∧ names (event_run (Demo.start, [])
             [fetchName_called "nA"; fetchName_called "nA";
              fetchName_request_settles "nA" (Some "a.example");
              fetchName_request_settles "nA" (Some "b.example")]).1 !! "nA"
    = Some "b.example".
Proof.
  intros n. split.
  - apply (proj1 X8_cached_name_kept_unless_request_in_flight n [] "nA" "a.example");
      [reflexivity | reflexivity | apply not_elem_of_nil].
  - apply (proj2 X8_cached_name_kept_unless_request_in_flight Demo.start [] "nA"
             "a.example" "b.example"); reflexivity.
Defined.

Lemma X9_witness :
  names_truthy (run Demo.start [request_settles (Some "v1"); request_settles (Some "v4")]).
Proof.
  apply (X9_names_stay_truthy Demo.start).
  intros id name Hid. vm_compute in Hid. discriminate.
Defined.

Lemma X10_witness :
  ∃ v, validators (run Demo.start [request_settles (Some "v1")]) !! "nA" = Some v
       ∧ 5 ≤ Validator.Sequence v.
Proof.
  apply (X10_registry_not_behind_applied_list Demo.start
           (run Demo.start [request_settles (Some "v1")]) "v1"
           (ValidatorList.mk 1 [ValidatorList.mk_entry "A" "A/5"]))
    with (validator := ValidatorList.mk_entry "A" "A/5") (manifest := Manifest.mk "k1" 5);
    try reflexivity.
  apply list_elem_of_here.
Defined.

Lemma X11_witness :
  let entry := ValidatorList.mk_entry "A" "A/5" in
  let n1 := (getUNL_validator true [] entry Demo.start).2 in
  let m := ManifestMessage.mk "nA" "nk9" 6 "" "" in
  let n2 := run Demo.start [request_settles (Some "v1")] in
  Network_onManifestReceived (ManifestMessage.mk "nA" "nk9" 5 "" "") n1 = (Returned tt, n1)
  ∧ getUNL_validator false [] entry (Network_onManifestReceived m n2).2
    = (Returned (remove [] "nA"), (Network_onManifestReceived m n2).2).
Proof.
  intros entry n1 m n2. split.
  - apply (proj1 X11_second_source_is_a_no_op true [] entry Demo.start (remove [] "nA") n1
             "nA" (Manifest.mk "k1" 5));
      [reflexivity | reflexivity | reflexivity | reflexivity | vm_compute; discriminate].
  - apply (proj2 X11_second_source_is_a_no_op m n2 (Validator.mk "nk1" 5) false [] entry
             (Manifest.mk "k1" 5));
      [reflexivity | reflexivity | reflexivity | vm_compute; discriminate].
Defined.

Lemma X12_witness :
  let n := Demo.start in
  let n' := step n (request_settles (Some "v1")) in
  ∃ new, calls n' = calls n ++ new
    ∧ Forall (λ c, ∃ data, c = OnUnlData data
                ∧ reported (identities [ValidatorList.mk_entry "A" "A/5"]) n n' data) new.
Proof.
  apply (X12_calls_of_a_validator_list Demo.start "v1"
           (ValidatorList.mk 1 [ValidatorList.mk_entry "A" "A/5"])).
  reflexivity.
Defined.

Lemma X13_witness :
  handle (resolve4_calls_back (Some ["1.2.3.4"])) (new_Network MAINNET)
  = (Thrown "TypeError", new_Network MAINNET)
  ∧ is_Some (stream_of (step Demo.start (resolve4_calls_back (Some ["1.2.3.4"; "5.6.7.8"])))
                       "ws://5.6.7.8:51233").
Proof.
  split.
  - exact (proj1 (X13_resolve4_connects_every_address (new_Network MAINNET) ["1.2.3.4"])).
  - apply (proj1 (proj2 (proj1 (X13_resolve4_connects_every_address Demo.start
                                   ["1.2.3.4"; "5.6.7.8"]))) "5.6.7.8").
    apply (bool_decide_unpack _). by vm_compute.
Defined.

Lemma X15_witness :
  streams_wf (run (run Demo.start [resolve4_calls_back (Some ["1.2.3.4"])])
                  [ws_emits 0 ws_open; ws_emits 0 (ws_close 1000 "bye")])
  ∧ objects (run (new_Network MAINNET)
                 [resolve4_calls_back (Some ["1.2.3.4"]); ws_emits 0 ws_open]) = [].
Proof.
  split.
  - apply (proj1 (X15_streams_refer_to_their_objects
                    (run Demo.start [resolve4_calls_back (Some ["1.2.3.4"])]) _)).
    intros address stream Hs.
    assert (validationStreams (run Demo.start [resolve4_calls_back (Some ["1.2.3.4"])])
            = Some {["ws://1.2.3.4:51233" := 0%nat]}) as Heq by reflexivity.
    unfold stream_of in Hs. rewrite Heq in Hs. simpl in Hs.
    apply lookup_singleton_Some in Hs as [<- <-]. by eexists.
  - apply (proj2 (X15_streams_refer_to_their_objects (new_Network MAINNET) _) MAINNET).
Defined.

Lemma X16_witness :
  let n := run Demo.start [resolve4_calls_back (Some ["1.2.3.4"])] in
  ∃ s', objects (run n [ws_emits 0 ws_open; ws_emits 0 (ws_close 1000 "bye")]) !! 0%nat
        = Some s'
        ∧ same_options (new_ValidationStream "ws://1.2.3.4:51233") s'.
Proof.
  intros n. apply (X16_stream_options_are_fixed n 0). reflexivity.
Defined.

Lemma X17_witness :
  let n := run Demo.start [resolve4_calls_back (Some ["1.2.3.4"])] in
  let s := new_ValidationStream "ws://1.2.3.4:51233" in
  let n' := step n (ws_emits 0 ws_open) in
  (∃ s', objects n' !! 0%nat = Some s'
     ∧ same_options s s'
     ∧ ValidationStream.ws_readyState s' = 1
     ∧ ValidationStream.ws_sent s'
       = [Request.mk 1 "subscribe" ["validations"];
          Request.mk 2 "subscribe" ["manifests"]]
     ∧ ValidationStream.pingTimeout s' = Some 31000)
  ∧ only_stream_changed 0 n n'.
Proof.
  intros n s n'. apply (X17_open_subscribes_and_arms n 0 s). reflexivity.
Defined.

Lemma X18_witness :
  let n := run Demo.start [resolve4_calls_back (Some ["1.2.3.4"])] in
  let n' := step n (ws_emits 0 ws_ping) in
  objects n' !! 0%nat
  = Some (ValidationStream.mk "ws://1.2.3.4:51233" true 30000 1000 (Some 31000) 0 [])
  ∧ only_stream_changed 0 n n'.
Proof.
  intros n n'.
  apply (X18_ping_rearms_the_timer n 0 (new_ValidationStream "ws://1.2.3.4:51233")).
  reflexivity.
Defined.

Lemma X19_witness :
  let n := run Demo.start [resolve4_calls_back (Some ["1.2.3.4"])] in
  handle (ws_emits 0 (ws_message unparsable 7)) n = (Thrown "SyntaxError", n).
Proof.
  intros n.
  apply (proj2 (proj2 (proj2 (X19_errors_and_unexpected_messages_are_ignored n 0))) 7).
  by eexists.
Defined.

Lemma X20_witness :
  let n := run Demo.start [resolve4_calls_back (Some ["1.2.3.4"]); ws_emits 0 ws_open] in
  let n' := step n (ws_emits 0 (ws_close 1000 "bye")) in
  validationStreams n' = delete "ws://1.2.3.4:51233" <$> validationStreams n.
Proof.
  intros n n'.
  apply (proj2 (X20_close_unregisters_the_address n 0
                  (ValidationStream.mk "ws://1.2.3.4:51233" true 30000 1000 (Some 31000) 1
                     [Request.mk 1 "subscribe" ["validations"];
                      Request.mk 2 "subscribe" ["manifests"]])
                  1000 "bye" eq_refl)).
Defined.

Lemma X21_witness :
  let n := run Demo.start [resolve4_calls_back (Some ["1.2.3.4"]); ws_emits 0 ws_open] in
  let n' := step n (pingTimeout_runs_out 0) in
  calls n' = calls n ++ [OnClose "ws://1.2.3.4:51233"
                           (CauseError "Terminated due to lack of heartbeat")]
  ∧ step n' (pingTimeout_runs_out 0) = n'.
Proof.
  intros n n'. split.
  - apply (proj1 (X21_heartbeat_timeout n 0)
             (ValidationStream.mk "ws://1.2.3.4:51233" true 30000 1000 (Some 31000) 1
                [Request.mk 1 "subscribe" ["validations"];
                 Request.mk 2 "subscribe" ["manifests"]])
             31000); reflexivity.
  - apply (proj2 (X21_heartbeat_timeout n' 0)).
    intros s Hs. vm_compute in Hs. by injection Hs as <-.
Defined.

Lemma X22_witness :
  let n := run Demo.start [resolve4_calls_back (Some ["1.2.3.4"])] in
  let n' := step n (ws_emits 0 (ws_message unknownStream 7)) in
  let cause :=
    CauseError ("Terminated due " +:+ dquote +:+ "unknownStream" +:+ dquote +:+ " message") in
  calls n' = calls n ++ [OnClose "ws://1.2.3.4:51233" cause].
Proof.
  intros n n' cause.
  apply (X22_unknownStream_terminates n 0 (new_ValidationStream "ws://1.2.3.4:51233") 7).
  reflexivity.
Defined.

Lemma X23_witness :
  let n := run Demo.start [resolve4_calls_back (Some ["1.2.3.4"])] in
  let n' := run n (deliver_votes 0 [(Demo.vote "nk1", 1); (Demo.vote "nk2", 2)]) in
  calls n'
  = calls n ++ [OnValidationReceived (ValidationMessage.set_timestamp 1 (Demo.vote "nk1"));
                OnValidationReceived (ValidationMessage.set_timestamp 2 (Demo.vote "nk2"))]
  ∧ objects n' = objects n
  ∧ validationStreams n' = validationStreams n
  ∧ same_registry n n'.
Proof.
  intros n n'.
  apply (X23_votes_are_forwarded_in_order n 0 (new_ValidationStream "ws://1.2.3.4:51233")
           [(Demo.vote "nk1", 1); (Demo.vote "nk2", 2)]).
  reflexivity.
Defined.

Lemma X24_witness :
  let s := ValidationStream.mk "ws://1.2.3.4:51233" false 30000 1000 None 0 [] in
  let n := set_objects (λ _, [s]) Demo.start in
  ∃ s', objects (run n [ws_emits 0 ws_open; ws_emits 0 ws_ping; pingTimeout_runs_out 0])
          !! 0%nat = Some s'
        ∧ same_options s s'
        ∧ ValidationStream.pingTimeout s' = None.
Proof.
  intros s n. apply (X24_no_heartbeat_no_timer n 0 s); reflexivity.
Defined.

Lemma X25_witness :
  let n := run Demo.start [resolve4_calls_back (Some ["1.2.3.4"]);
                           request_settles (Some "v1")] in
  let i := ws_emits 0 (ws_message (manifestReceived
                                     (ManifestMessage.mk "nA" "nk2" 7 "" "")) 1) in
  calls (step n i)
  = calls n ++ [OnUnlData (UnlData.mk false false true "a.example" "nA" "nk2" 7 (Some true))]
  ∧ ∃ new, calls (step n i) = calls n ++ new
      ∧ ∀ data, OnUnlData data ∈ new → named (step n i) data.
Proof.
  intros n i. split; [reflexivity|].
  apply (X25_reported_names_are_cached_or_the_identity n i).
Defined.

Lemma X28_witness :
  let n := run Demo.start [request_settles (Some "v1")] in
  ∃ n', handle (request_settles (Some "v4")) n = (Returned tt, n').
Proof.
  intros n.
  assert (parseValidatorList "v4"
          = Some (ValidatorList.mk 4 [ValidatorList.mk_entry "B" "B/1"])) as Hp
    by reflexivity.
  assert (lastValidatorListSequence n < 4) as Hlt by reflexivity.
  apply (proj1 (X28_roster_removes_absent_identities n "v4" _ Hp Hlt)).
  repeat constructor. exists "nB", (Manifest.mk "k4" 1), "nk4". repeat split.
Defined.
